(** * ladder-summarize: the summarizer of [scripts/ladder-summarize.py]

    The script reads a JSON array of test-result records, counts the result
    labels, picks the first failure, and renders a Markdown report.  This
    file embeds [main] and the local values it computes ([counts],
    [root_failure], [blocked], [lines]) and proves the properties of the
    report.

    Conventions of the embedding.
    - A Python [str] is a [string]; the file content is its UTF-8 text.
    - A record is a Python [dict] with string keys, as [json.loads] builds
      it: a finite map [gmap string value].  Only [dict.get] and the
      truth value of the dict are used by the script, so insertion order
      is not observable.
    - A field value is a JSON scalar: [null], a boolean, an integer or a
      string.  Floating-point numbers and nested arrays and objects as
      field values are outside the model.
    - [json.loads] and [pathlib.Path] are library functions: they are
      parameters of [main].
    - The file system maps files to what they hold; the world tells which
      file the text of a path names, whether it can be opened for writing,
      and whether a write to it fails once it is open.
    - A line of the report is an entry of the list [lines] that the script
      joins with line feeds.  These are the lines of the written text when
      no entry holds a line feed ([rendered_lines]). *)

From Stdlib Require Import Ascii.
From stdpp Require Import gmap strings pretty list fin_maps.

Local Open Scope string_scope.
Local Open Scope list_scope.

(** ** Python values *)

Module Py.

(** The JSON scalars, as Python objects. *)
Inductive value : Type :=
  | VNone
  | VBool (b : bool)
  | VInt (z : Z)
  | VStr (s : string).

#[global] Instance value_eq_dec : EqDecision value.
Proof. solve_decision. Defined.

Definition value_to_sum (v : value) : unit + bool + Z + string :=
  match v with
  | VNone => inl (inl (inl tt))
  | VBool b => inl (inl (inr b))
  | VInt z => inl (inr z)
  | VStr s => inr s
  end.

Definition value_of_sum (x : unit + bool + Z + string) : value :=
  match x with
  | inl (inl (inl _)) => VNone
  | inl (inl (inr b)) => VBool b
  | inl (inr z) => VInt z
  | inr s => VStr s
  end.

#[global] Instance value_countable : Countable value.
Proof.
  apply (inj_countable' value_to_sum value_of_sum).
  by intros [].
Defined.

(** [str(v)], which an f-string applies to each interpolated value. *)
Definition str (v : value) : string :=
  match v with
  | VNone => "None"
  | VBool true => "True"
  | VBool false => "False"
  | VInt z => pretty z
  | VStr s => s
  end.

(** Python compares and hashes [True] as [1] and [False] as [0]: as a
    dictionary key a boolean is the integer. *)
Definition key (v : value) : value :=
  match v with
  | VBool true => VInt 1
  | VBool false => VInt 0
  | _ => v
  end.

(** [v == w]. *)
Definition eqb (v w : value) : bool := bool_decide (key v = key w).

(** [d.get(k)] and [d.get(k, default)]. *)
Definition get (d : gmap string value) (k : string) : value :=
  default VNone (d !! k).

Definition get_or (d : gmap string value) (k : string) (dflt : value) : value :=
  default dflt (d !! k).

(** The truth value of a dict: it is true when the dict is not empty. *)
Definition truthy (d : gmap string value) : bool :=
  negb (bool_decide (d = ∅)).

(** One step of [Counter]: the count of [v] goes up by one, from 0 when
    [v] is not counted yet. *)
Definition bump (c : gmap value nat) (v : value) : gmap value nat :=
  <[key v := S (default 0 (c !! key v))]> c.

(** [collections.Counter(it)]: the elements of [it] are counted from left
    to right. *)
Definition Counter (it : list value) : gmap value nat :=
  foldl bump ∅ it.

(** [c.get(k, 0)] on a counter. *)
Definition count_get (c : gmap value nat) (k : value) : nat :=
  default 0 (c !! key k).

(** [sep.join(ls)]. *)
Fixpoint join (sep : string) (ls : list string) : string :=
  match ls with
  | [] => ""
  | [l] => l
  | l :: ls' => l +:+ sep +:+ join sep ls'
  end.

End Py.

Import Py.

(** ** The summary of a list of records *)

Abbreviation row := (gmap string value).

(** The line feed, Python's ['\n']. *)
Definition lf : ascii := Ascii.Ascii false true false true false false false false.
Definition LF : string := String lf "".

Definition UNKNOWN : value := VStr "UNKNOWN".

(** [r.get('result') == 'FAIL'] and [r.get('result') == 'BLOCKED']. *)
Definition is_fail (r : row) : bool := eqb (get r "result") (VStr "FAIL").
Definition is_blocked (r : row) : bool := eqb (get r "result") (VStr "BLOCKED").

(** [counts = Counter(r.get('result', 'UNKNOWN') for r in rows)] *)
Definition counts (rows : list row) : gmap value nat :=
  Counter ((λ r, get_or r "result" UNKNOWN) <$> rows).

(** [root_failure = next((r for r in rows if r.get('result') == 'FAIL'), None)] *)
Definition root_failure (rows : list row) : option row :=
  List.find is_fail rows.

(** [blocked = [r for r in rows if r.get('result') == 'BLOCKED']] *)
Definition blocked (rows : list row) : list row :=
  List.filter is_blocked rows.

(** The three [## Outcome] bullets. *)
Definition outcome_lines (c : gmap value nat) : list string :=
  [ "- PASS: " +:+ pretty (count_get c (VStr "PASS"));
    "- FAIL: " +:+ pretty (count_get c (VStr "FAIL"));
    "- BLOCKED: " +:+ pretty (count_get c (VStr "BLOCKED")) ].

(** The lines appended under [if root_failure:].  The condition is the
    truth value of the object bound to [root_failure]: [None] is false, and
    a dict is true when it is not empty. *)
Definition root_cause_lines (rf : option row) (bl : list row) : list string :=
  match rf with
  | Some rf =>
      if truthy rf then
        [ "## Root cause";
          "- Test " +:+ str (get rf "test") +:+ ": `"
            +:+ str (get_or rf "code" UNKNOWN) +:+ "`";
          "- Detail: " +:+ str (get_or rf "detail" (VStr "")) ]
        ++ (match bl with
            | [] => []
            | _ :: _ =>
                [ "- Downstream blocked: " +:+ pretty (length bl) +:+ " test(s)" ]
            end)
        ++ [ "" ]
      else []
  | None => []
  end.

(** The bullet of one record in [## Test matrix]. *)
Definition matrix_line (r : row) : string :=
  let test := get_or r "test" (VStr "?") in
  let result := get_or r "result" UNKNOWN in
  let code := get_or r "code" UNKNOWN in
  let detail := get_or r "detail" (VStr "") in
  "- Test " +:+ str test +:+ ": " +:+ str result +:+ " | " +:+ str code
    +:+ " | " +:+ str detail.

(** The list [lines] when [main] reaches the write: [in_path] is the text
    of the input path and [now] the ISO-8601 text of the clock reading. *)
Definition lines (in_path now : string) (rows : list row) : list string :=
  [ "# Ladder Summary";
    "";
    "- Generated: " +:+ now;
    "- Input: `" +:+ in_path +:+ "`";
    "";
    "## Outcome" ]
  ++ outcome_lines (counts rows)
  ++ [ "" ]
  ++ root_cause_lines (root_failure rows) (blocked rows)
  ++ [ "## Test matrix" ]
  ++ (matrix_line <$> rows).

(** The text given to [write_text]: ['\n'.join(lines) + '\n']. *)
Definition rendered (in_path now : string) (rows : list row) : string :=
  join LF (lines in_path now rows) +:+ LF.

(** ** Reading the rendered document back *)

(** The lines that follow the first line equal to [h], if there is one. *)
Fixpoint after (h : string) (ls : list string) : option (list string) :=
  match ls with
  | [] => None
  | l :: ls' => if String.eqb l h then Some ls' else after h ls'
  end.

(** The longest prefix of non-empty lines. *)
Fixpoint until_blank (ls : list string) : list string :=
  match ls with
  | [] => []
  | l :: ls' => if String.eqb l "" then [] else l :: until_blank ls'
  end.

(** The body of the section headed by the line [h]: the lines after the
    header up to the next blank line or the end of the document. *)
Definition section_of (h : string) (ls : list string) : option (list string) :=
  until_blank <$> after h ls.

(** [text.split('\n')]: the lines of a text. *)
Fixpoint split_lf (text : string) : list string :=
  match text with
  | "" => [""]
  | String c text' =>
      if Ascii.eqb c lf then "" :: split_lf text'
      else match split_lf text' with
           | [] => [String c ""]
           | l :: ls => String c l :: ls
           end
  end.

(** The string [s] holds a line feed. *)
Fixpoint has_lf (s : string) : bool :=
  match s with
  | "" => false
  | String c s' => Ascii.eqb c lf || has_lf s'
  end.

(** The lines of a document that start with [p]. *)
Definition lines_with_prefix (p : string) (ls : list string) : list string :=
  List.filter (String.prefix p) ls.

(** ** The process *)

Inductive node : Type :=
  | File (content : string)
  | Dir.

(** What [main] reads: the command line, the file system, and the
    ISO-8601 text of the clock reading.  The file system is a map from
    files to what they hold, and the file that the text of a path names
    ([locate]): two texts may name one file, as [in.json] and
    [d/../in.json] do, or a symbolic link and its target.  For a file,
    [can_write] tells whether it can be opened for writing, and
    [write_fault] whether a write fails once the file is open, and after
    how many bytes: none when the encoder rejects the text. *)
Record world : Type := World {
  argv : list string;
  fs : gmap string node;
  locate : string → string;
  can_write : string → bool;
  write_fault : string → option nat;
  now : string
}.

(** The exceptions that escape [main]: [ValueError] stands for the one of
    an input text that does not decode or parse ([json.JSONDecodeError] is
    a [ValueError]) or does not parse to records, [OSError] for the one of
    a file that cannot be opened, or of a write that fails once the file
    is open. *)
Inductive exception : Type :=
  | IsADirectoryError
  | ValueError
  | OSError.

(** How [main] ends: it returns, raises [SystemExit(msg)], or lets an
    exception escape. *)
Inductive ending : Type :=
  | Return (code : Z)
  | SystemExit (msg : string)
  | Raise (e : exception).

(** The state [main] leaves: the file system and the standard output. *)
Record effects : Type := Effects {
  fs_after : gmap string node;
  stdout : string
}.

(** [p.exists()] *)
Definition exists_ (w : world) (p : string) : bool :=
  bool_decide (is_Some (fs w !! locate w p)).

(** [p.read_text()] *)
Definition read_text (w : world) (p : string) : exception + string :=
  match fs w !! locate w p with
  | Some (File text) => inr text
  | Some Dir => inl IsADirectoryError
  | None => inl OSError
  end.

(** [p.write_text(data)]: the file is opened for writing, which creates
    it or empties it, and the text is written to it.  When the open
    fails the file system is as it was; when the write fails after it,
    the file holds the bytes written so far.  The result is the file
    system left and the exception raised, if any. *)
Definition write_text (w : world) (p data : string)
    : gmap string node * option exception :=
  match fs w !! locate w p with
  | Some Dir => (fs w, Some IsADirectoryError)
  | _ =>
      if can_write w (locate w p) then
        match write_fault w (locate w p) with
        | Some n =>
            (<[locate w p := File (String.substring 0 n data)]> (fs w),
             Some OSError)
        | None => (<[locate w p := File data]> (fs w), None)
        end
      else (fs w, Some OSError)
  end.

(** What the interpreter writes to the standard error stream. *)
Inductive diagnostic : Type :=
  | Silent
  | Message (text : string)
  | Traceback (e : exception).

(** How the process ends: its exit status, the standard error stream, and
    the state it leaves. *)
Record result : Type := Result {
  status : Z;
  err : diagnostic;
  final : effects
}.

(** The ways a run can go: the input path names nothing, or a directory;
    the text of the input file does not parse; the output file is not
    opened; the write fails after [n] bytes; the report is written. *)
Inductive course : Type :=
  | Missing
  | Unreadable
  | Unparsed
  | Refused (e : exception)
  | Cut (rows : list row) (n : nat)
  | Written (rows : list row).

Section Main.

(** [Path s], as the text [str(Path(s))] that names the file. *)
Variable Path : string → string.

(** [json.loads] on the text of the input file, with the records that
    the loops of [main] read from the parsed document: the elements of
    an array, and none for a document that iterates as empty; nothing
    when decoding or parsing raises, or when reading the records does. *)
Variable json_loads : string → option (list row).

Definition in_path_of (w : world) : string :=
  Path (default "tmp/ladder-results.json" (argv w !! 1)).

Definition out_path_of (w : world) : string :=
  Path (default "tmp/ladder-summary.md" (argv w !! 2)).

Definition main (w : world) : ending * effects :=
  let in_path := in_path_of w in
  let out_path := out_path_of w in
  if negb (exists_ w in_path) then
    (SystemExit ("Input not found: " +:+ in_path), Effects (fs w) "")
  else
    match read_text w in_path with
    | inl e => (Raise e, Effects (fs w) "")
    | inr text =>
        match json_loads text with
        | None => (Raise ValueError, Effects (fs w) "")
        | Some rows =>
            match write_text w out_path (rendered in_path (now w) rows) with
            | (fs', Some e) => (Raise e, Effects fs' "")
            | (fs', None) => (Return 0, Effects fs' (out_path +:+ LF))
            end
        end
    end.

(** [raise SystemExit(main())] under [if __name__ == '__main__']: an
    integer is the exit status, a message is printed to the standard
    error stream with status 1, and an escaping exception prints its
    traceback with status 1. *)
Definition run (w : world) : result :=
  match main w with
  | (Return code, e) => Result code Silent e
  | (SystemExit msg, e) => Result 1 (Message (msg +:+ LF)) e
  | (Raise x, e) => Result 1 (Traceback x) e
  end.

(** The run that reaches the end of [main] with the records [rows]. *)
Definition success (w : world) (rows : list row) : result :=
  Result 0 Silent
    (Effects (<[locate w (out_path_of w)
                := File (rendered (in_path_of w) (now w) rows)]> (fs w))
             (out_path_of w +:+ LF)).

(** The run whose write fails after [n] bytes, once the output file is
    open: the file holds the first [n] bytes of the report. *)
Definition broken (w : world) (rows : list row) (n : nat) : result :=
  Result 1 (Traceback OSError)
    (Effects (<[locate w (out_path_of w)
                := File (String.substring 0 n
                           (rendered (in_path_of w) (now w) rows))]> (fs w))
             "").

(** A run that ends with status 1: the file system is as it was and nothing
    is on the standard output. *)
Definition failure (w : world) (d : diagnostic) : result :=
  Result 1 d (Effects (fs w) "").

(** The course that the run on [w] takes; the clock is not read for it. *)
Definition course_of (w : world) : course :=
  match fs w !! locate w (in_path_of w) with
  | None => Missing
  | Some Dir => Unreadable
  | Some (File text) =>
      match json_loads text with
      | None => Unparsed
      | Some rows =>
          match fs w !! locate w (out_path_of w) with
          | Some Dir => Refused IsADirectoryError
          | _ =>
              if can_write w (locate w (out_path_of w)) then
                match write_fault w (locate w (out_path_of w)) with
                | Some n => Cut rows n
                | None => Written rows
                end
              else Refused OSError
          end
      end
  end.

(** How a run on [w] that takes the course [c] ends. *)
Definition result_of (w : world) (c : course) : result :=
  match c with
  | Missing =>
      failure w (Message ("Input not found: " +:+ in_path_of w +:+ LF))
  | Unreadable => failure w (Traceback IsADirectoryError)
  | Unparsed => failure w (Traceback ValueError)
  | Refused e => failure w (Traceback e)
  | Cut rows n => broken w rows n
  | Written rows => success w rows
  end.

End Main.

(** * Vocabulary of the properties *)

(** ** Counters *)

(** The number of elements of [l] that are the dictionary key [k]. *)
Definition occurrences (k : value) (l : list value) : nat :=
  length (List.filter (λ v, bool_decide (key v = k)) l).

(** The sum of all the counts of a counter. *)
Definition total (c : gmap value nat) : nat :=
  map_fold (λ _ n acc, n + acc) 0 c.

(** The label under which a record is counted. *)
Definition label (r : row) : value := get_or r "result" UNKNOWN.

(** The number of records whose label is equal to [k], as [==] has it. *)
Definition labelled (k : value) (rows : list row) : nat :=
  length (List.filter (λ r, eqb (label r) k) rows).

(** The four counts of the enumeration, added up. *)
Definition four_counts (c : gmap value nat) : nat :=
  count_get c (VStr "PASS") + count_get c (VStr "FAIL")
  + count_get c (VStr "BLOCKED") + count_get c UNKNOWN.

(** A label outside PASS, FAIL, BLOCKED and UNKNOWN. *)
Definition other_label (r : row) : bool :=
  negb (bool_decide (key (label r) ∈
    [VStr "PASS"; VStr "FAIL"; VStr "BLOCKED"; UNKNOWN])).

(** ** Records by their result *)

(** The [result] field of [r] is the string [s], exactly. *)
Definition result_is (s : string) (r : row) : Prop :=
  r !! "result" = Some (VStr s).

#[global] Instance result_is_dec s r : Decision (result_is s r).
Proof. unfold result_is. apply _. Defined.

(** Some record of [rows] has the result [s]. *)
Definition has_result (s : string) (rows : list row) : bool :=
  existsb (λ r, bool_decide (result_is s r)) rows.

(** The number of records of [rows] that have the result [s]. *)
Definition count_result (s : string) (rows : list row) : nat :=
  length (List.filter (λ r, bool_decide (result_is s r)) rows).

(** The number of records of [rows] that have no [result] field. *)
Definition count_absent (rows : list row) : nat :=
  length (List.filter (λ r, bool_decide (r !! "result" = None)) rows).

(** ** Lines of the report *)

(** The text shown for the field [k] of [r], [dflt] when it is absent. *)
Definition shown (r : row) (k dflt : string) : string :=
  match r !! k with
  | Some v => str v
  | None => dflt
  end.

(** The bullet of the test matrix for [r], with the defaults of absent
    fields. *)
Definition bullet (r : row) : string :=
  "- Test " +:+ shown r "test" "?" +:+ ": " +:+ shown r "result" "UNKNOWN"
    +:+ " | " +:+ shown r "code" "UNKNOWN" +:+ " | " +:+ shown r "detail" "".

(** The line that reports [n] blocked tests. *)
Definition downstream_line (n : nat) : string :=
  "- Downstream blocked: " +:+ pretty n +:+ " test(s)".

(** The body of the root-cause section for the failure [r], [n] records
    being blocked: the identifier as [str] prints what [r.get('test')]
    returns, the code, the detail, and the downstream line when [n] is not
    zero. *)
Definition cause_section (r : row) (n : nat) : list string :=
  [ "- Test " +:+ str (get r "test") +:+ ": `" +:+ shown r "code" "UNKNOWN" +:+ "`";
    "- Detail: " +:+ shown r "detail" "" ]
  ++ (if bool_decide (n = 0) then [] else [ downstream_line n ]).

(** The lines of the report before the root-cause section, each count
    being the number of records that have the result. *)
Definition preamble (in_path now : string) (rows : list row) : list string :=
  [ "# Ladder Summary";
    "";
    "- Generated: " +:+ now;
    "- Input: `" +:+ in_path +:+ "`";
    "";
    "## Outcome";
    "- PASS: " +:+ pretty (count_result "PASS" rows);
    "- FAIL: " +:+ pretty (count_result "FAIL" rows);
    "- BLOCKED: " +:+ pretty (count_result "BLOCKED" rows);
    "" ].

(** Two documents that have the same lines but for line [i]. *)
Definition same_but_line (i : nat) (ls1 ls2 : list string) : Prop :=
  length ls1 = length ls2 ∧ ∀ j, j ≠ i → ls1 !! j = ls2 !! j.

(** The text of the report before and after the clock reading. *)
Definition before_timestamp : string :=
  "# Ladder Summary" +:+ LF +:+ LF +:+ "- Generated: ".

Definition after_timestamp (in_path : string) (rows : list row) : string :=
  LF +:+ join LF (drop 3 (lines in_path "" rows)) +:+ LF.

(** ** Worlds *)

(** The world [w] with the clock reading [t]. *)
Definition at_time (w : world) (t : string) : world :=
  World (argv w) (fs w) (locate w) (can_write w) (write_fault w) t.

(** ** Sample inputs *)

(** A record whose label is [SKIPPED]. *)
Definition skipped_rows : list row :=
  [ {[ "test" := VStr "t1"; "result" := VStr "SKIPPED" ]} ].

(** A passing test, then two failures. *)
Definition two_failures : list row :=
  [ {[ "test" := VStr "t1"; "result" := VStr "PASS" ]};
    {[ "test" := VStr "t2"; "result" := VStr "FAIL"; "code" := VStr "E_TIMEOUT";
       "detail" := VStr "connect failed" ]};
    {[ "test" := VStr "t3"; "result" := VStr "FAIL"; "code" := VStr "E_AUTH" ]} ].

(** Blocked tests and no failure. *)
Definition blocked_only : list row :=
  [ {[ "test" := VStr "t1"; "result" := VStr "PASS" ]};
    {[ "test" := VStr "t2"; "result" := VStr "BLOCKED" ]} ].

(** A failure without a [test] field. *)
Definition anonymous_failure : list row :=
  [ {[ "result" := VStr "FAIL"; "code" := VStr "E_TIMEOUT" ]} ].

(** A blocked test before the failure. *)
Definition blocked_first : gmap string value :=
  {[ "test" := VInt 1; "result" := VStr "BLOCKED" ]}.
Definition late_failure : gmap string value :=
  {[ "test" := VInt 2; "result" := VStr "FAIL" ]}.

(** A world without files, and one that holds an input file. *)
Definition empty_world : world :=
  World ["ladder-summarize.py"; "in.json"; "out.md"] ∅ id (λ _, true)
        (λ _, None) "2026-01-01T00:00:00+00:00".

Definition ready_world : world :=
  World ["ladder-summarize.py"; "in.json"; "out.md"]
        {[ "in.json" := File "[]" ]} id (λ _, true) (λ _, None)
        "2026-01-01T00:00:00+00:00".

(** A passing test whose detail holds the lines of a root-cause
    section. *)
Definition forged_rows : list row :=
  [ {[ "test" := VStr "t1"; "result" := VStr "PASS";
       "detail" := VStr ("see" +:+ LF +:+ "## Root cause" +:+ LF
                         +:+ "- Downstream blocked: 9 test(s)") ]} ].

(** A passing test whose detail holds a second bullet. *)
Definition two_line_rows : list row :=
  [ {[ "test" := VStr "t1"; "result" := VStr "PASS";
       "detail" := VStr ("first" +:+ LF +:+ "- Test t9: PASS | UNKNOWN | ") ]} ].

(** A failing test whose detail ends with a line feed. *)
Definition trailing_rows : list row :=
  [ {[ "test" := VStr "t1"; "result" := VStr "FAIL";
       "detail" := VStr ("boom" +:+ LF) ]} ].

(** A world whose input file holds that record, and a parser that knows
    its text; [trailing_text] stands for the JSON text of the record. *)
Definition trailing_text : string := "one record, detail boom and a line feed".

Definition trailing_world : world :=
  World ["ladder-summarize.py"; "in.json"; "out.md"]
        {[ "in.json" := File trailing_text ]} id (λ _, true) (λ _, None)
        "2026-01-01T00:00:00+00:00".

Definition loads_sample (text : string) : option (list row) :=
  if String.eqb text "[]" then Some []
  else if String.eqb text trailing_text then Some trailing_rows
  else None.

(** A parser that knows the empty array. *)
Definition loads_empty (text : string) : option (list row) :=
  if String.eqb text "[]" then Some [] else None.

(** ** Texts without line feed *)

(** The text of the field [k] of [r], when the field is there, holds no
    line feed. *)
Definition clean_field (r : row) (k : string) : bool :=
  match r !! k with
  | Some v => negb (has_lf (str v))
  | None => true
  end.

(** None of the four fields that the report prints holds a line feed. *)
Definition clean_row (r : row) : bool :=
  clean_field r "test" && clean_field r "result"
  && clean_field r "code" && clean_field r "detail".

(** The input path, the clock reading and the printed fields of the
    records hold no line feed. *)
Definition clean_input (in_path t : string) (rows : list row) : bool :=
  negb (has_lf in_path) && negb (has_lf t) && forallb clean_row rows.

(** ** The end of a text *)

(** The number of line feeds that end the text [s]. *)
Fixpoint trailing_lfs (s : string) : nat :=
  match s with
  | "" => 0
  | String c s' =>
      let n := trailing_lfs s' in
      if Ascii.eqb c lf && Nat.eqb n (String.length s') then S n else n
  end.

(** The text of the detail of the last record, empty when there is no
    record. *)
Definition last_detail (rows : list row) : string :=
  match last rows with
  | Some r => shown r "detail" ""
  | None => ""
  end.

(** ** Runs in sequence *)


(** ** More sample inputs *)

(** The input path names a directory. *)
Definition dir_world : world :=
  World ["ladder-summarize.py"; "results"; "out.md"]
        {[ "results" := Dir ]} id (λ _, true) (λ _, None)
        "2026-01-01T00:00:00+00:00".

(** The input file holds a text that is not JSON. *)
Definition garbage_world : world :=
  World ["ladder-summarize.py"; "in.json"; "out.md"]
        {[ "in.json" := File "not json" ]} id (λ _, true) (λ _, None)
        "2026-01-01T00:00:00+00:00".

(** A passing and a blocked test, whose field texts hold no line feed. *)
Definition clean_rows : list row :=
  [ {[ "test" := VInt 1; "result" := VStr "PASS" ]};
    {[ "test" := VInt 2; "result" := VStr "BLOCKED"; "detail" := VStr "waiting" ]} ].

(** * Properties *)

(** ** Counting *)

Lemma bump_lookup c v k :
  default 0 (bump c v !! k)
  = (if bool_decide (key v = k) then 1 else 0) + default 0 (c !! k).
Proof.
  unfold bump. case_bool_decide as Hk.
  - subst k. by rewrite lookup_insert_eq.
  - by rewrite lookup_insert_ne.
Qed.

Lemma foldl_bump_lookup l c k :
  default 0 (foldl bump c l !! k) = default 0 (c !! k) + occurrences k l.
Proof.
  revert c. induction l as [|v l IH]; intros c.
  - unfold occurrences. simpl. lia.
  - simpl foldl. rewrite IH, bump_lookup. unfold occurrences. simpl.
    case_bool_decide; simpl; lia.
Qed.

Lemma count_get_Counter l k : count_get (Counter l) k = occurrences (key k) l.
Proof.
  unfold count_get, Counter. rewrite foldl_bump_lookup.
  by rewrite lookup_empty.
Qed.

Lemma total_insert_fresh c k n :
  c !! k = None → total (<[k := n]> c) = n + total c.
Proof.
  intros Hk. unfold total. rewrite map_fold_insert_L; [done | | done].
  intros. lia.
Qed.

Lemma total_bump c v : total (bump c v) = S (total c).
Proof.
  unfold bump. destruct (c !! key v) as [n|] eqn:Hk; simpl.
  - rewrite <- (insert_delete_eq c (key v)).
    rewrite total_insert_fresh by apply lookup_delete_eq.
    rewrite <- (insert_id c (key v) n Hk) at 2.
    rewrite <- (insert_delete_eq c (key v) n).
    rewrite total_insert_fresh by apply lookup_delete_eq. lia.
  - by rewrite total_insert_fresh.
Qed.

Lemma total_foldl_bump l c : total (foldl bump c l) = total c + length l.
Proof.
  revert c. induction l as [|v l IH]; intros c; simpl.
  - lia.
  - rewrite IH, total_bump. lia.
Qed.

Lemma total_Counter l : total (Counter l) = length l.
Proof.
  unfold Counter. rewrite total_foldl_bump. unfold total.
  by rewrite map_fold_empty.
Qed.

Lemma other_label_spec r :
  other_label r = true ↔
  key (label r) ≠ VStr "PASS" ∧ key (label r) ≠ VStr "FAIL"
  ∧ key (label r) ≠ VStr "BLOCKED" ∧ key (label r) ≠ UNKNOWN.
Proof.
  unfold other_label. rewrite negb_true_iff, bool_decide_eq_false.
  rewrite !elem_of_cons, elem_of_nil. tauto.
Qed.

Lemma labels_partition rows :
  occurrences (VStr "PASS") (label <$> rows)
  + occurrences (VStr "FAIL") (label <$> rows)
  + occurrences (VStr "BLOCKED") (label <$> rows)
  + occurrences UNKNOWN (label <$> rows)
  + length (List.filter other_label rows)
  = length rows.
Proof.
  unfold occurrences. induction rows as [|r rows IH]; [done|].
  rewrite fmap_cons. simpl List.filter.
  destruct (other_label r) eqn:Ho.
  - apply other_label_spec in Ho as (H1 & H2 & H3 & H4).
    rewrite !bool_decide_eq_false_2 by done. simpl in *. lia.
  - apply not_true_iff_false in Ho. rewrite other_label_spec in Ho.
    destruct (decide (key (label r) = VStr "PASS")) as [E|N1].
    { rewrite E. simpl in *. lia. }
    destruct (decide (key (label r) = VStr "FAIL")) as [E|N2].
    { rewrite E. simpl in *. lia. }
    destruct (decide (key (label r) = VStr "BLOCKED")) as [E|N3].
    { rewrite E. simpl in *. lia. }
    destruct (decide (key (label r) = UNKNOWN)) as [E|N4].
    { rewrite E. simpl in *. lia. }
    tauto.
Qed.

(** A record without a [result] field is counted under [UNKNOWN], and a
    record with one under the value of the field. *)
Lemma label_absent r : r !! "result" = None → label r = UNKNOWN.
Proof. unfold label, get_or. by intros ->. Qed.

Lemma label_present r v : r !! "result" = Some v → label r = v.
Proof. unfold label, get_or. by intros ->. Qed.

(** A record is labelled [UNKNOWN] when it has no [result] field or when
    its result is the string [UNKNOWN]. *)
Lemma unknown_label r :
  key (label r) = UNKNOWN ↔ r !! "result" = None ∨ result_is "UNKNOWN" r.
Proof.
  unfold label, get_or, result_is, UNKNOWN.
  destruct (r !! "result") as [[| [] | |s]|]; simpl;
    (split;
     [ intros H; first [discriminate | left; reflexivity | right; congruence]
     | intros [H|H]; congruence ]).
Qed.

Lemma count_get_unknown rows :
  count_get (counts rows) UNKNOWN
  = count_absent rows + count_result "UNKNOWN" rows.
Proof.
  unfold counts. rewrite count_get_Counter.
  unfold occurrences, count_absent, count_result. simpl key.
  induction rows as [|r rows IH]; [done|].
  rewrite fmap_cons. simpl List.filter. fold (label r).
  rewrite (bool_decide_ext _ _ (unknown_label r)).
  unfold result_is in *.
  repeat case_bool_decide; simpl; first [lia | tauto | congruence].
Qed.

(** The count shown for a label of the enumeration is the number of
    records that have it as their result. *)
Lemma count_get_counts s rows :
  s ≠ "UNKNOWN" → count_get (counts rows) (VStr s) = count_result s rows.
Proof.
  intros Hs. unfold counts. rewrite count_get_Counter.
  unfold occurrences, count_result. simpl key.
  induction rows as [|r rows IH]; [done|].
  rewrite fmap_cons. simpl List.filter.
  assert (bool_decide (key (get_or r "result" UNKNOWN) = VStr s)
          = bool_decide (result_is s r)) as ->.
  { apply bool_decide_ext. unfold get_or, result_is, UNKNOWN.
    destruct (r !! "result") as [[| [] | |]|]; simpl; split; congruence. }
  destruct (bool_decide (result_is s r)); simpl; by rewrite IH.
Qed.

(** C1, as the code has it.  The counts of all the labels add up to the
    number of records, a record without a [result] field being counted
    under [UNKNOWN].  A label outside PASS, FAIL, BLOCKED and UNKNOWN is
    counted under its own name: the count read for a string other than
    [UNKNOWN] is the number of records that have it as their result, and
    the count read for any label is the number of records with a label
    equal to it.  So the four counts of the enumeration and the number of
    records with another label add up to the number of records. *)
Theorem counts_sum (rows : list row) :
  total (counts rows) = length rows
  ∧ count_get (counts rows) UNKNOWN
    = count_absent rows + count_result "UNKNOWN" rows
  ∧ (∀ s, s ≠ "UNKNOWN" →
       count_get (counts rows) (VStr s) = count_result s rows)
  ∧ (∀ k, count_get (counts rows) k = occurrences (key k) (label <$> rows))
  ∧ four_counts (counts rows) + length (List.filter other_label rows)
    = length rows.
Proof.
  split_and!.
  - unfold counts. by rewrite total_Counter, length_fmap.
  - apply count_get_unknown.
  - intros s Hs. by apply count_get_counts.
  - intros k. unfold counts. apply count_get_Counter.
  - unfold four_counts, counts. rewrite !count_get_Counter.
    apply labels_partition.
Qed.

(** The four counts of the enumeration do not add up to the number of
    records when a label is outside it, which refutes C1 as it is stated:
    the record labelled [SKIPPED] is in none of the four counts, and in
    particular not in that of [UNKNOWN]. *)
Lemma four_counts_skipped :
  four_counts (counts skipped_rows) ≠ length skipped_rows.
Proof. vm_compute. discriminate. Qed.

(** ** Records and their fields *)

Lemma is_fail_result r : is_fail r = bool_decide (result_is "FAIL" r).
Proof.
  unfold is_fail, eqb, get, result_is. apply bool_decide_ext.
  destruct (r !! "result") as [[| [] | |]|]; simpl; split; congruence.
Qed.

Lemma is_blocked_result r : is_blocked r = bool_decide (result_is "BLOCKED" r).
Proof.
  unfold is_blocked, eqb, get, result_is. apply bool_decide_ext.
  destruct (r !! "result") as [[| [] | |]|]; simpl; split; congruence.
Qed.

(** A record that has a field is not the empty dict: it is true. *)
Lemma truthy_lookup (r : row) k v : r !! k = Some v → truthy r = true.
Proof.
  intros H. unfold truthy. rewrite negb_true_iff, bool_decide_eq_false.
  intros ->. by rewrite lookup_empty in H.
Qed.

Lemma str_get_or r k d : str (get_or r k (VStr d)) = shown r k d.
Proof. unfold get_or, shown. by destruct (r !! k). Qed.

Lemma matrix_line_bullet r : matrix_line r = bullet r.
Proof. unfold matrix_line, bullet, UNKNOWN. by rewrite !str_get_or. Qed.

Lemma blocked_length rows : length (blocked rows) = count_result "BLOCKED" rows.
Proof.
  unfold blocked, count_result. f_equal. apply List.filter_ext.
  apply is_blocked_result.
Qed.

Lemma has_result_app s l1 l2 :
  has_result s (l1 ++ l2) = has_result s l1 || has_result s l2.
Proof. apply existsb_app. Qed.

Lemma count_result_app s l1 l2 :
  count_result s (l1 ++ l2) = count_result s l1 + count_result s l2.
Proof. unfold count_result. by rewrite List.filter_app, length_app. Qed.

Lemma has_result_count s rows :
  has_result s rows = negb (bool_decide (count_result s rows = 0)).
Proof.
  unfold has_result, count_result. induction rows as [|r rows IH]; [done|].
  simpl. destruct (bool_decide (result_is s r)); simpl; [done|apply IH].
Qed.

(** [next] returns the first record that matches, if one does. *)
Lemma root_failure_split rows r :
  root_failure rows = Some r →
  ∃ pre post, rows = pre ++ r :: post
    ∧ has_result "FAIL" pre = false ∧ result_is "FAIL" r.
Proof.
  unfold root_failure. induction rows as [|x rows IH]; [done|].
  simpl. rewrite is_fail_result. case_bool_decide as Hx.
  - intros [= ->]. by exists [], rows.
  - intros (pre & post & -> & Hpre & Hr)%IH.
    exists (x :: pre), post. split_and!; [done| |done].
    simpl. by rewrite bool_decide_eq_false_2.
Qed.

Lemma root_failure_first pre r post :
  has_result "FAIL" pre = false → result_is "FAIL" r →
  root_failure (pre ++ r :: post) = Some r.
Proof.
  unfold root_failure. intros Hpre Hr. induction pre as [|x pre IH]; simpl.
  - by rewrite is_fail_result, bool_decide_eq_true_2.
  - simpl in Hpre. apply orb_false_iff in Hpre as [Hx Hpre].
    rewrite is_fail_result, Hx. by apply IH.
Qed.

Lemma root_failure_some rows :
  has_result "FAIL" rows = true → is_Some (root_failure rows).
Proof.
  unfold root_failure, has_result. induction rows as [|x rows IH]; [done|].
  simpl. rewrite is_fail_result. destruct (bool_decide _); [eauto|apply IH].
Qed.

Lemma root_failure_none rows :
  has_result "FAIL" rows = false → root_failure rows = None.
Proof.
  intros H. destruct (root_failure rows) as [r|] eqn:E; [|done].
  apply root_failure_split in E as (pre & post & -> & _ & Hr).
  rewrite has_result_app in H. simpl in H.
  rewrite (bool_decide_eq_true_2 _ Hr) in H.
  by rewrite orb_true_r in H.
Qed.

(** ** The shape of the document *)

(** The lines appended under [if root_failure:], by what [next] found. *)
Lemma root_cause_lines_shape rows :
  root_cause_lines (root_failure rows) (blocked rows)
  = match root_failure rows with
    | Some r =>
        "## Root cause" :: cause_section r (count_result "BLOCKED" rows) ++ [""]
    | None => []
    end.
Proof.
  destruct (root_failure rows) as [r|] eqn:E; [|done].
  apply root_failure_split in E as (_ & _ & _ & _ & Hr).
  unfold root_cause_lines. rewrite (truthy_lookup _ _ _ Hr).
  unfold cause_section, downstream_line, UNKNOWN.
  rewrite !str_get_or, <- blocked_length.
  destruct (blocked _); simpl; reflexivity.
Qed.

Lemma lines_shape in_path now rows :
  lines in_path now rows
  = preamble in_path now rows
    ++ match root_failure rows with
       | Some r =>
           "## Root cause"
             :: cause_section r (count_result "BLOCKED" rows) ++ [""]
       | None => []
       end
    ++ "## Test matrix" :: (bullet <$> rows).
Proof.
  unfold lines, preamble, outcome_lines.
  rewrite root_cause_lines_shape, !count_get_counts by done.
  assert (matrix_line <$> rows = bullet <$> rows) as ->; [|reflexivity].
  apply list_fmap_ext. intros. apply matrix_line_bullet.
Qed.

(** ** Reading the document back *)

Lemma eqb_head c1 c2 s t :
  Ascii.eqb c1 c2 = false → String.eqb (String c1 s) (String c2 t) = false.
Proof. simpl. by intros ->. Qed.

Lemma after_skip h l ls :
  String.eqb l h = false → after h (l :: ls) = after h ls.
Proof. simpl. by intros ->. Qed.

Lemma after_here h ls : after h (h :: ls) = Some ls.
Proof. simpl. by rewrite String.eqb_refl. Qed.

Lemma after_None h ls : after h ls = None ↔ h ∉ ls.
Proof.
  induction ls as [|l ls IH]; simpl.
  - split; [intros _; apply not_elem_of_nil | done].
  - rewrite not_elem_of_cons. destruct (String.eqb_spec l h) as [->|Hne].
    + split; [done | intros [? _]; done].
    + rewrite IH. split; [intros ?; split; congruence | tauto].
Qed.

Lemma with_prefix_skip p l ls :
  String.prefix p l = false → lines_with_prefix p (l :: ls) = lines_with_prefix p ls.
Proof. unfold lines_with_prefix. simpl. by intros ->. Qed.

Lemma with_prefix_app p ls1 ls2 :
  lines_with_prefix p (ls1 ++ ls2) = lines_with_prefix p ls1 ++ lines_with_prefix p ls2.
Proof. apply List.filter_app. Qed.

(** A closed comparison of two lines, or one decided by their first
    characters. *)
Ltac differ := first [ reflexivity | apply eqb_head; reflexivity ].

Lemma after_bullets t rows : after (String "#"%char t) (bullet <$> rows) = None.
Proof.
  induction rows as [|r rows IH]; [done|].
  rewrite fmap_cons, after_skip; [done | differ].
Qed.

Lemma until_blank_bullets rows : until_blank (bullet <$> rows) = bullet <$> rows.
Proof. induction rows as [|r rows IH]; [done|]. rewrite fmap_cons. simpl. by rewrite IH. Qed.

Lemma downstream_bullets rows :
  lines_with_prefix "- Downstream blocked" (bullet <$> rows) = [].
Proof.
  induction rows as [|r rows IH]; [done|].
  rewrite fmap_cons, with_prefix_skip; [done | reflexivity].
Qed.

Lemma after_preamble t in_path now rows rest :
  String.eqb "# Ladder Summary" (String "#"%char t) = false →
  String.eqb "## Outcome" (String "#"%char t) = false →
  after (String "#"%char t) (preamble in_path now rows ++ rest)
  = after (String "#"%char t) rest.
Proof.
  intros H1 H2. unfold preamble. cbn [app].
  rewrite (after_skip _ _ _ H1).
  do 4 (rewrite after_skip by differ).
  rewrite (after_skip _ _ _ H2).
  by do 4 (rewrite after_skip by differ).
Qed.

Lemma downstream_preamble in_path now rows :
  lines_with_prefix "- Downstream blocked" (preamble in_path now rows) = [].
Proof. reflexivity. Qed.

Lemma until_blank_cause r n rest :
  until_blank (cause_section r n ++ "" :: rest) = cause_section r n.
Proof.
  unfold cause_section, downstream_line.
  case_bool_decide; reflexivity.
Qed.

Lemma after_cause h r n rest :
  after (String "#"%char h) (cause_section r n ++ rest) = after (String "#"%char h) rest.
Proof.
  unfold cause_section, downstream_line. cbn [app].
  do 2 (rewrite after_skip by differ).
  case_bool_decide; cbn [app]; [done|].
  by rewrite after_skip by differ.
Qed.

Lemma downstream_cause r n :
  lines_with_prefix "- Downstream blocked" (cause_section r n)
  = if bool_decide (n = 0) then [] else [downstream_line n].
Proof. unfold cause_section. case_bool_decide; reflexivity. Qed.

(** ** The sections of the report *)

Lemma section_root_cause in_path now rows :
  section_of "## Root cause" (lines in_path now rows)
  = (λ r, cause_section r (count_result "BLOCKED" rows)) <$> root_failure rows.
Proof.
  unfold section_of. rewrite lines_shape, after_preamble by reflexivity.
  destruct (root_failure rows) as [r|]; cbn [app].
  - rewrite after_here. simpl. f_equal.
    rewrite <- app_assoc. apply until_blank_cause.
  - rewrite after_skip by reflexivity.
    by rewrite after_bullets.
Qed.

Lemma section_matrix in_path now rows :
  section_of "## Test matrix" (lines in_path now rows) = Some (bullet <$> rows).
Proof.
  unfold section_of. rewrite lines_shape, after_preamble by reflexivity.
  destruct (root_failure rows) as [r|]; cbn [app].
  - rewrite after_skip by reflexivity.
    rewrite <- app_assoc, after_cause. cbn [app].
    rewrite after_skip by reflexivity.
    rewrite after_here. simpl. by rewrite until_blank_bullets.
  - rewrite after_here. simpl. by rewrite until_blank_bullets.
Qed.

Lemma downstream_lines in_path now rows :
  lines_with_prefix "- Downstream blocked" (lines in_path now rows)
  = match root_failure rows with
    | Some _ =>
        if bool_decide (count_result "BLOCKED" rows = 0) then []
        else [downstream_line (count_result "BLOCKED" rows)]
    | None => []
    end.
Proof.
  rewrite lines_shape, with_prefix_app, downstream_preamble.
  destruct (root_failure rows) as [r|]; cbn [app].
  - rewrite with_prefix_skip by reflexivity.
    rewrite !with_prefix_app, downstream_cause.
    do 2 (rewrite with_prefix_skip by reflexivity).
    rewrite downstream_bullets. by rewrite !app_nil_r.
  - rewrite with_prefix_skip by reflexivity. apply downstream_bullets.
Qed.

(** The records after the first failure show in the root-cause section by
    the number of blocked records among them, and by nothing else. *)
Lemma later_records_do_not_show in_path now pre r post post' :
  has_result "FAIL" pre = false → result_is "FAIL" r →
  count_result "BLOCKED" post' = count_result "BLOCKED" post →
  section_of "## Root cause" (lines in_path now (pre ++ r :: post'))
  = section_of "## Root cause" (lines in_path now (pre ++ r :: post)).
Proof.
  intros Hpre Hr Hn.
  rewrite !section_root_cause, !root_failure_first by done. simpl.
  rewrite !count_result_app. unfold count_result in *. simpl.
  destruct (bool_decide (result_is "BLOCKED" r)); simpl; by rewrite Hn.
Qed.

(** C2.  When some record has the result [FAIL], the root failure is the
    first such record of the input, and the root-cause section is made of
    that record and of the number of blocked records alone: no later
    failure shows in it, and the section stays the same when the records
    after the first failure are replaced by others with as many blocked
    records. *)
Theorem root_cause_first_fail (in_path now : string) (rows : list row) :
  has_result "FAIL" rows = true →
  ∃ pre r post,
    rows = pre ++ r :: post
    ∧ has_result "FAIL" pre = false
    ∧ result_is "FAIL" r
    ∧ root_failure rows = Some r
    ∧ section_of "## Root cause" (lines in_path now rows)
      = Some (cause_section r (count_result "BLOCKED" rows))
    ∧ ∀ post',
        count_result "BLOCKED" post' = count_result "BLOCKED" post →
        section_of "## Root cause" (lines in_path now (pre ++ r :: post'))
        = section_of "## Root cause" (lines in_path now rows).
Proof.
  intros [r Hr]%root_failure_some.
  destruct (root_failure_split _ _ Hr) as (pre & post & Hrows & Hpre & Hfail).
  exists pre, r, post. split_and!; try done.
  - by rewrite section_root_cause, Hr.
  - intros post' Hn. rewrite Hrows. by apply later_records_do_not_show.
Qed.

Lemma root_cause_first_fail_witness :
  has_result "FAIL" two_failures = true
  ∧ ∃ pre r post,
      two_failures = pre ++ r :: post
      ∧ has_result "FAIL" pre = false
      ∧ result_is "FAIL" r
      ∧ root_failure two_failures = Some r
      ∧ section_of "## Root cause" (lines "in.json" "T" two_failures)
        = Some (cause_section r (count_result "BLOCKED" two_failures))
      ∧ ∀ post',
          count_result "BLOCKED" post' = count_result "BLOCKED" post →
          section_of "## Root cause" (lines "in.json" "T" (pre ++ r :: post'))
          = section_of "## Root cause" (lines "in.json" "T" two_failures).
Proof.
  split; [reflexivity|].
  apply (root_cause_first_fail "in.json" "T" two_failures). reflexivity.
Defined.

(** When no record has the result [FAIL], no entry of [lines] is
    [## Root cause], and none reports blocked tests, whatever the number
    of blocked records. *)
Lemma no_fail_entries (in_path now : string) (rows : list row) :
  has_result "FAIL" rows = false →
  root_failure rows = None
  ∧ ("## Root cause" ∉ lines in_path now rows)
  ∧ section_of "## Root cause" (lines in_path now rows) = None
  ∧ lines_with_prefix "- Downstream blocked" (lines in_path now rows) = [].
Proof.
  intros Hnone%root_failure_none.
  assert (section_of "## Root cause" (lines in_path now rows) = None) as Hsec.
  { by rewrite section_root_cause, Hnone. }
  split_and!; [done | | done |].
  - apply after_None. unfold section_of in Hsec.
    by destruct (after _ _).
  - by rewrite downstream_lines, Hnone.
Qed.

(** The entries of [lines] after the only entry [## Test matrix] are the
    bullets of the records, in the order of the input. *)
Lemma matrix_entries (in_path now : string) (rows : list row) :
  section_of "## Test matrix" (lines in_path now rows) = Some (bullet <$> rows)
  ∧ (∃ before, ("## Test matrix" ∉ before)
       ∧ lines in_path now rows = before ++ "## Test matrix" :: (bullet <$> rows))
  ∧ section_of "## Test matrix" (lines in_path now []) = Some [].
Proof.
  split_and!; [apply section_matrix | | apply section_matrix].
  rewrite lines_shape.
  exists (preamble in_path now rows
            ++ match root_failure rows with
               | Some r =>
                   "## Root cause"
                     :: cause_section r (count_result "BLOCKED" rows) ++ [""]
               | None => []
               end).
  split; [|by rewrite <- app_assoc].
  apply after_None. rewrite <- (app_nil_r (_ ++ _)), <- app_assoc.
  rewrite after_preamble by reflexivity.
  destruct (root_failure rows) as [r|]; cbn [app]; [|done].
  rewrite after_skip by reflexivity.
  by rewrite <- app_assoc, after_cause.
Qed.

(** The identifier of the root-cause section is what [str] prints for
    [r.get('test')]: for a failure without a [test] field it is [None]. *)
Lemma cause_section_absent_test r n :
  r !! "test" = None →
  head (cause_section r n)
  = Some ("- Test None: `" +:+ shown r "code" "UNKNOWN" +:+ "`").
Proof. unfold cause_section, get. by intros ->. Qed.

(** C5 fails on the code.  For a first failure without a [test] field the
    root-cause section shows the identifier [None], while the bullet of
    the same record in the test matrix shows the default [?]. *)
Theorem root_cause_absent_test_shows_None :
  section_of "## Root cause" (lines "in.json" "T" anonymous_failure)
  = Some [ "- Test None: `E_TIMEOUT`"; "- Detail: " ]
  ∧ section_of "## Test matrix" (lines "in.json" "T" anonymous_failure)
    = Some [ "- Test ?: FAIL | E_TIMEOUT | " ].
Proof. split; reflexivity. Qed.

(** The entries of [lines] that report blocked tests, by what [next]
    found. *)
Lemma downstream_entries (in_path now : string) (rows : list row) :
  lines_with_prefix "- Downstream blocked" (lines in_path now rows)
  = if bool_decide (is_Some (root_failure rows)) && has_result "BLOCKED" rows
    then [ "- Downstream blocked: " +:+ pretty (count_result "BLOCKED" rows)
             +:+ " test(s)" ]
    else [].
Proof.
  rewrite downstream_lines, has_result_count.
  destruct (root_failure rows) as [r|].
  - rewrite (bool_decide_eq_true_2 (is_Some _)) by eauto. simpl.
    by destruct (bool_decide (count_result "BLOCKED" rows = 0)).
  - rewrite (bool_decide_eq_false_2 (is_Some _)); [done|]. by intros [? ?].
Qed.

(** A root failure exists when some record has the result [FAIL]. *)
Lemma root_failure_exists rows :
  is_Some (root_failure rows) ↔ has_result "FAIL" rows = true.
Proof.
  split; [|apply root_failure_some].
  intros [r Hr]. destruct (has_result "FAIL" rows) eqn:E; [done|].
  apply root_failure_none in E. congruence.
Qed.

(** C10.  The blocked records that come before the first failure are
    counted like those that come after it: the downstream line reports the
    blocked records of both sides. *)
Theorem blocked_before_failure_counted
    (in_path now : string) (pre post : list row) (r : row) :
  has_result "FAIL" pre = false →
  result_is "FAIL" r →
  has_result "BLOCKED" pre = true →
  root_failure (pre ++ r :: post) = Some r
  ∧ lines_with_prefix "- Downstream blocked" (lines in_path now (pre ++ r :: post))
    = [ downstream_line (count_result "BLOCKED" pre + count_result "BLOCKED" post) ]
  ∧ 0 < count_result "BLOCKED" pre.
Proof.
  intros Hpre Hr Hb. rewrite has_result_count in Hb.
  apply negb_true_iff, bool_decide_eq_false in Hb.
  assert (count_result "BLOCKED" (pre ++ r :: post)
          = count_result "BLOCKED" pre + count_result "BLOCKED" post) as Hn.
  { rewrite count_result_app. f_equal. unfold count_result. simpl.
    rewrite bool_decide_eq_false_2; [done|].
    unfold result_is in *. congruence. }
  split_and!; [by apply root_failure_first | | lia].
  rewrite downstream_lines, root_failure_first, Hn by done.
  rewrite bool_decide_eq_false_2; [done | lia].
Qed.

Lemma blocked_before_failure_counted_witness :
  has_result "FAIL" [blocked_first] = false
  ∧ result_is "FAIL" late_failure
  ∧ has_result "BLOCKED" [blocked_first] = true
  ∧ lines_with_prefix "- Downstream blocked"
      (lines "in.json" "T" ([blocked_first] ++ late_failure :: []))
    = [ "- Downstream blocked: 1 test(s)" ].
Proof.
  split_and!; [reflexivity..|].
  apply (blocked_before_failure_counted "in.json" "T" [blocked_first] [] late_failure);
    reflexivity.
Defined.

(** ** The text of the report *)

Lemma append_assoc (s1 s2 s3 : string) :
  (s1 +:+ s2) +:+ s3 = s1 +:+ (s2 +:+ s3).
Proof.
  induction s1 as [|c s1 IH]; [done|].
  change (String c ((s1 +:+ s2) +:+ s3) = String c (s1 +:+ (s2 +:+ s3))).
  by rewrite IH.
Qed.

Lemma join_cons_cons sep a b ls :
  join sep (a :: b :: ls) = a +:+ sep +:+ join sep (b :: ls).
Proof. reflexivity. Qed.

(** The first lines of the report: the clock reading is on the third. *)
Lemma lines_head in_path t rows :
  lines in_path t rows
  = "# Ladder Summary" :: "" :: ("- Generated: " +:+ t)
      :: drop 3 (lines in_path "" rows).
Proof. reflexivity. Qed.

Lemma drop_3_lines in_path rows :
  ∃ l ls, drop 3 (lines in_path "" rows) = l :: ls.
Proof. eexists _, _. reflexivity. Qed.

(** The text of the report is the same text around the clock reading. *)
Lemma rendered_split in_path t rows :
  rendered in_path t rows
  = before_timestamp +:+ t +:+ after_timestamp in_path rows.
Proof.
  unfold rendered, before_timestamp, after_timestamp.
  rewrite lines_head.
  destruct (drop_3_lines in_path rows) as (l & ls & ->).
  rewrite !join_cons_cons, !append_assoc. reflexivity.
Qed.

Lemma lines_same_but_timestamp in_path t1 t2 rows :
  same_but_line 2 (lines in_path t1 rows) (lines in_path t2 rows).
Proof.
  rewrite (lines_head in_path t1), (lines_head in_path t2). split; [done|].
  intros [|[|[|j]]] Hj; done.
Qed.

(** The lines of a text made of a line without line feed and more text. *)
Lemma split_lf_line l text :
  has_lf l = false →
  split_lf (l +:+ LF +:+ text) = l :: split_lf text.
Proof.
  induction l as [|c l IH]; intros Hl.
  - reflexivity.
  - simpl in Hl. apply orb_false_iff in Hl as [Hc Hl].
    change (String c l +:+ LF +:+ text) with (String c (l +:+ LF +:+ text)).
    simpl. by rewrite Hc, IH.
Qed.

Lemma split_lf_last l :
  has_lf l = false → split_lf (l +:+ LF) = [l; ""].
Proof.
  induction l as [|c l IH]; intros Hl.
  - reflexivity.
  - simpl in Hl. apply orb_false_iff in Hl as [Hc Hl].
    change (String c l +:+ LF) with (String c (l +:+ LF)).
    simpl. by rewrite Hc, IH.
Qed.

(** Splitting undoes joining, when no line holds a line feed. *)
Lemma split_lf_join ls :
  Forall (λ l, has_lf l = false) ls → ls ≠ [] →
  split_lf (join LF ls +:+ LF) = ls ++ [""].
Proof.
  induction ls as [|l ls IH]; intros Hall Hne; [done|].
  apply Forall_cons in Hall as [Hl Hall].
  destruct ls as [|l' ls].
  - simpl join. by apply split_lf_last.
  - rewrite join_cons_cons, !append_assoc, split_lf_line by done.
    by rewrite IH.
Qed.

(** The lines of the written text are the entries of [lines], followed by
    the empty line that ends the text, when no entry holds a line feed. *)
Lemma rendered_lines in_path t rows :
  Forall (λ l, has_lf l = false) (lines in_path t rows) →
  split_lf (rendered in_path t rows) = lines in_path t rows ++ [""].
Proof. intros Hall. apply split_lf_join; [done|]. by rewrite lines_head. Qed.

(** The last line of the report is not blank. *)
Lemma last_nonblank (h : string) ls :
  Forall (λ l, l ≠ "") (h :: ls) → ∃ l, last (h :: ls) = Some l ∧ l ≠ "".
Proof.
  revert h. induction ls as [|x ls IH]; intros h Hall.
  - exists h. split; [done|]. by apply Forall_inv in Hall.
  - rewrite last_cons_cons. apply IH. by apply Forall_inv_tail in Hall.
Qed.

Lemma lines_last in_path t rows :
  ∃ l, last (lines in_path t rows) = Some l ∧ l ≠ "".
Proof.
  rewrite lines_shape, app_assoc, last_app_cons.
  apply last_nonblank. constructor; [done|].
  apply Forall_fmap, Forall_true. intros r. unfold bullet. simpl. discriminate.
Qed.

(** ** The process *)

Section Process.

Variable Path : string → string.
Variable json_loads : string → option (list row).

(** [main] takes one of the six courses, and ends as the course tells. *)
Lemma run_course (w : world) :
  run Path json_loads w = result_of Path w (course_of Path json_loads w).
Proof.
  unfold run, main, exists_, read_text, write_text, course_of, result_of,
    failure, broken, success.
  destruct (fs w !! locate w (in_path_of Path w)) as [[text|]|] eqn:Hin.
  - rewrite bool_decide_eq_true_2 by eauto. simpl.
    destruct (json_loads text) as [rows|]; [|done].
    destruct (fs w !! locate w (out_path_of Path w)) as [[c|]|];
      try done;
      destruct (can_write w (locate w (out_path_of Path w))); try done;
      by destruct (write_fault w (locate w (out_path_of Path w))).
  - rewrite bool_decide_eq_true_2 by eauto. done.
  - rewrite bool_decide_eq_false_2 by (by intros [? ?]). done.
Qed.

(** The world at another time has the same paths and files. *)
Ltac same_world P w t :=
  change (in_path_of P (at_time w t)) with (in_path_of P w) in *;
  change (out_path_of P (at_time w t)) with (out_path_of P w) in *;
  change (fs (at_time w t)) with (fs w) in *;
  change (locate (at_time w t)) with (locate w) in *;
  change (now (at_time w t)) with t in *.

(** The clock reading does not decide the course of a run. *)
Lemma course_at_time (w : world) (t : string) :
  course_of Path json_loads (at_time w t) = course_of Path json_loads w.
Proof. reflexivity. Qed.

(** C6.  When the input path does not exist, the process ends with the
    status 1, the message on the standard error stream names the path, and
    nothing is written: the file system is as it was, the output path
    included, and the standard output is empty. *)
Theorem missing_input_fails (w : world) :
  fs w !! locate w (in_path_of Path w) = None →
  status (run Path json_loads w) = 1%Z
  ∧ status (run Path json_loads w) ≠ 0%Z
  ∧ err (run Path json_loads w)
    = Message ("Input not found: " +:+ in_path_of Path w +:+ LF)
  ∧ fs_after (final (run Path json_loads w)) = fs w
  ∧ fs_after (final (run Path json_loads w)) !! locate w (out_path_of Path w)
    = fs w !! locate w (out_path_of Path w)
  ∧ stdout (final (run Path json_loads w)) = "".
Proof.
  intros Hin. rewrite run_course. unfold course_of. rewrite Hin.
  by split_and!.
Qed.

(** C9.  Two runs on the same command line and file system end alike
    whatever the clock shows: the same status, the same diagnostic, the
    same standard output, and the same content of every file but the
    output file.  When they succeed, the two output files hold the same
    lines but for the third, which carries the clock reading, and the same
    bytes before and after that reading.  When they fail they leave the
    same file system, unless the write was cut after some bytes: the two
    output files then hold as many bytes of the two reports.  With the
    same clock reading the two runs are the same. *)
Theorem rerun_differs_in_timestamp (w : world) (t1 t2 : string) :
  status (run Path json_loads (at_time w t1))
  = status (run Path json_loads (at_time w t2))
  ∧ err (run Path json_loads (at_time w t1))
    = err (run Path json_loads (at_time w t2))
  ∧ stdout (final (run Path json_loads (at_time w t1)))
    = stdout (final (run Path json_loads (at_time w t2)))
  ∧ (∀ p, p ≠ locate w (out_path_of Path w) →
       fs_after (final (run Path json_loads (at_time w t1))) !! p
       = fs_after (final (run Path json_loads (at_time w t2))) !! p)
  ∧ (status (run Path json_loads (at_time w t1)) = 0%Z →
       ∃ rows,
         fs_after (final (run Path json_loads (at_time w t1)))
           !! locate w (out_path_of Path w)
         = Some (File (join LF (lines (in_path_of Path w) t1 rows) +:+ LF))
         ∧ fs_after (final (run Path json_loads (at_time w t2)))
             !! locate w (out_path_of Path w)
           = Some (File (join LF (lines (in_path_of Path w) t2 rows) +:+ LF))
         ∧ same_but_line 2 (lines (in_path_of Path w) t1 rows)
                           (lines (in_path_of Path w) t2 rows)
         ∧ lines (in_path_of Path w) t1 rows !! 2 = Some ("- Generated: " +:+ t1)
         ∧ lines (in_path_of Path w) t2 rows !! 2 = Some ("- Generated: " +:+ t2)
         ∧ join LF (lines (in_path_of Path w) t1 rows) +:+ LF
           = before_timestamp +:+ t1 +:+ after_timestamp (in_path_of Path w) rows
         ∧ join LF (lines (in_path_of Path w) t2 rows) +:+ LF
           = before_timestamp +:+ t2 +:+ after_timestamp (in_path_of Path w) rows)
  ∧ (status (run Path json_loads (at_time w t1)) ≠ 0%Z →
       final (run Path json_loads (at_time w t1))
       = final (run Path json_loads (at_time w t2))
       ∨ ∃ rows n,
           write_fault w (locate w (out_path_of Path w)) = Some n
           ∧ fs_after (final (run Path json_loads (at_time w t1)))
               !! locate w (out_path_of Path w)
             = Some (File (String.substring 0 n
                 (before_timestamp +:+ t1
                    +:+ after_timestamp (in_path_of Path w) rows)))
           ∧ fs_after (final (run Path json_loads (at_time w t2)))
               !! locate w (out_path_of Path w)
             = Some (File (String.substring 0 n
                 (before_timestamp +:+ t2
                    +:+ after_timestamp (in_path_of Path w) rows))))
  ∧ (t1 = t2 →
       run Path json_loads (at_time w t1) = run Path json_loads (at_time w t2)).
Proof.
  rewrite !run_course, !course_at_time.
  assert (∀ rows n, course_of Path json_loads w = Cut rows n →
            write_fault w (locate w (out_path_of Path w)) = Some n) as Hcut.
  { intros rows n. unfold course_of.
    repeat case_match; intros [=]; by subst. }
  destruct (course_of Path json_loads w) as [| | |e|rows n|rows] eqn:Hc;
    unfold result_of, failure, broken, success;
    cbn [status err final fs_after stdout];
    same_world Path w t1; same_world Path w t2.
  1-4: split_and!; try done; by left.
  - split_and!; try done.
    + intros p Hp. by rewrite !lookup_insert_ne.
    + intros _. right. exists rows, n. rewrite !lookup_insert_eq.
      split_and!; [by apply (Hcut rows n) | by rewrite <- rendered_split ..].
    + by intros ->.
  - split_and!; try done.
    + intros p Hp. by rewrite !lookup_insert_ne.
    + intros _. exists rows. rewrite !lookup_insert_eq.
      split_and!; try done.
      * apply lines_same_but_timestamp.
      * apply rendered_split.
      * apply rendered_split.
    + by intros ->.
Qed.

(** What a run that ends with the status 0 found and did. *)
Lemma run_status_0 (w : world) :
  status (run Path json_loads w) = 0%Z →
  ∃ text rows,
    fs w !! locate w (in_path_of Path w) = Some (File text)
    ∧ json_loads text = Some rows
    ∧ fs w !! locate w (out_path_of Path w) ≠ Some Dir
    ∧ can_write w (locate w (out_path_of Path w)) = true
    ∧ write_fault w (locate w (out_path_of Path w)) = None
    ∧ run Path json_loads w = success Path w rows.
Proof.
  rewrite run_course. unfold course_of.
  destruct (fs w !! locate w (in_path_of Path w)) as [[text|]|] eqn:Hin;
    try discriminate.
  destruct (json_loads text) as [rows|] eqn:Hl; try discriminate.
  destruct (fs w !! locate w (out_path_of Path w)) as [[c|]|] eqn:Hout;
    try discriminate;
    destruct (can_write w (locate w (out_path_of Path w))); try discriminate;
    destruct (write_fault w (locate w (out_path_of Path w))); try discriminate;
    intros _; by exists text, rows.
Qed.

End Process.

(** ** Runs on sample worlds *)

Lemma missing_input_fails_witness :
  fs empty_world !! locate empty_world (in_path_of id empty_world) = None
  ∧ status (run id loads_empty empty_world) = 1%Z
  ∧ status (run id loads_empty empty_world) ≠ 0%Z
  ∧ err (run id loads_empty empty_world)
    = Message ("Input not found: " +:+ in_path_of id empty_world +:+ LF)
  ∧ fs_after (final (run id loads_empty empty_world)) = fs empty_world
  ∧ fs_after (final (run id loads_empty empty_world))
      !! locate empty_world (out_path_of id empty_world)
    = fs empty_world !! locate empty_world (out_path_of id empty_world)
  ∧ stdout (final (run id loads_empty empty_world)) = "".
Proof.
  split; [reflexivity|].
  apply (missing_input_fails id loads_empty empty_world). reflexivity.
Defined.

(** The report of the empty input, as the run on the sample world writes
    it. *)
Example ready_world_report :
  fs_after (final (run id loads_empty ready_world)) !! "out.md"
  = Some (File (join LF
      [ "# Ladder Summary"; "";
        "- Generated: 2026-01-01T00:00:00+00:00";
        "- Input: `in.json`"; "";
        "## Outcome"; "- PASS: 0"; "- FAIL: 0"; "- BLOCKED: 0"; "";
        "## Test matrix" ] +:+ LF)).
Proof. reflexivity. Qed.

(** Two failures: the section shows the first, and only it. *)
Example two_failures_section :
  section_of "## Root cause" (lines "in.json" "T" two_failures)
  = Some [ "- Test t2: `E_TIMEOUT`"; "- Detail: connect failed" ].
Proof. reflexivity. Qed.

(** The comparison with [FAIL] is exact: a record whose result is [fail]
    is no failure. *)
Example lowercase_fail_is_no_failure :
  root_failure [ {[ "test" := VStr "t1"; "result" := VStr "fail" ]} ] = None.
Proof. reflexivity. Qed.

(** A failure and a blocked test: the counts, the root cause with its
    downstream line, and the matrix. *)
Example failure_then_blocked_report :
  lines "in.json" "T"
    [ {[ "test" := VStr "t1"; "result" := VStr "FAIL"; "code" := VStr "E_TIMEOUT";
         "detail" := VStr "connect failed" ]};
      {[ "test" := VStr "t2"; "result" := VStr "BLOCKED" ]} ]
  = [ "# Ladder Summary"; ""; "- Generated: T"; "- Input: `in.json`"; "";
      "## Outcome"; "- PASS: 0"; "- FAIL: 1"; "- BLOCKED: 1"; "";
      "## Root cause"; "- Test t1: `E_TIMEOUT`"; "- Detail: connect failed";
      "- Downstream blocked: 1 test(s)"; "";
      "## Test matrix"; "- Test t1: FAIL | E_TIMEOUT | connect failed";
      "- Test t2: BLOCKED | UNKNOWN | " ].
Proof. reflexivity. Qed.

(** * Further properties *)

(** ** The counter *)

Lemma foldl_bump_lookup_opt l c k :
  foldl bump c l !! k
  = if bool_decide (occurrences k l = 0) then c !! k
    else Some (default 0 (c !! k) + occurrences k l).
Proof.
  revert c. induction l as [|v l IH]; intros c; [done|].
  simpl foldl. rewrite IH. unfold occurrences. simpl List.filter.
  unfold bump at 1 2. destruct (decide (key v = k)) as [Hk|Hk].
  - rewrite (bool_decide_eq_true_2 _ Hk), Hk. simpl length.
    rewrite lookup_insert_eq. simpl.
    clear IH. case_bool_decide as Hl; f_equal; lia.
  - rewrite (bool_decide_eq_false_2 (key v = k)) by done.
    by rewrite lookup_insert_ne.
Qed.

Lemma occurrences_Permutation k l l' :
  l ≡ₚ l' → occurrences k l = occurrences k l'.
Proof.
  unfold occurrences. induction 1 as [|x l l' _ IH|x y l|l l' l'' _ IH1 _ IH2].
  - done.
  - simpl. destruct (bool_decide (key x = k)); simpl; by rewrite IH.
  - simpl. destruct (bool_decide (key x = k)), (bool_decide (key y = k)); done.
  - by rewrite IH1.
Qed.

(** The entry of the counter under a dictionary key. *)
Lemma counts_lookup_key (rows : list row) (k : value) :
  counts rows !! k
  = if bool_decide (occurrences k (label <$> rows) = 0) then None
    else Some (occurrences k (label <$> rows)).
Proof.
  unfold counts, Counter. rewrite foldl_bump_lookup_opt, lookup_empty.
  change (λ r : row, get_or r "result" UNKNOWN) with label.
  destruct (bool_decide _); reflexivity.
Qed.

Lemma occurrences_labelled k rows :
  occurrences (key k) (label <$> rows) = labelled k rows.
Proof.
  unfold occurrences, labelled, eqb.
  induction rows as [|r rows IH]; [done|].
  rewrite fmap_cons. simpl. destruct (bool_decide _); simpl; by rewrite IH.
Qed.

(** X1.  The counter holds exactly the labels that occur in the input.
    Looking a value up, as [k in counts] and [counts.get(k)] do, finds
    no entry when no record has a label equal to it, [True] being equal
    to [1] and [False] to [0]; it finds otherwise the number of records
    with such a label, never zero. *)
Theorem counts_lookup (rows : list row) (k : value) :
  counts rows !! key k
  = (if bool_decide (labelled k rows = 0) then None
     else Some (labelled k rows))
  ∧ (labelled k rows = 0 ↔ Forall (λ r, eqb (label r) k = false) rows).
Proof.
  split.
  - by rewrite counts_lookup_key, occurrences_labelled.
  - unfold labelled. induction rows as [|r rows IH].
    + split; [constructor | done].
    + simpl. rewrite Forall_cons. destruct (eqb (label r) k); simpl.
      * split; [done | intros [? _]; done].
      * rewrite IH. tauto.
Qed.

Lemma counts_Permutation rows rows' :
  rows ≡ₚ rows' → counts rows = counts rows'.
Proof.
  intros Hp. apply map_eq. intros k. rewrite !counts_lookup_key.
  by rewrite (occurrences_Permutation k (label <$> rows) (label <$> rows'))
    by (by apply fmap_Permutation).
Qed.

(** ** The outcome section *)

Lemma section_outcome in_path now rows :
  section_of "## Outcome" (lines in_path now rows)
  = Some [ "- PASS: " +:+ pretty (count_result "PASS" rows);
           "- FAIL: " +:+ pretty (count_result "FAIL" rows);
           "- BLOCKED: " +:+ pretty (count_result "BLOCKED" rows) ].
Proof.
  unfold section_of. rewrite lines_shape. unfold preamble. cbn [app].
  do 5 (rewrite after_skip by differ).
  rewrite after_here. reflexivity.
Qed.


Lemma count_result_Permutation s rows rows' :
  rows ≡ₚ rows' → count_result s rows = count_result s rows'.
Proof.
  unfold count_result. induction 1 as [|x l l' _ IH|x y l|l l' l'' _ IH1 _ IH2].
  - done.
  - simpl. destruct (bool_decide (result_is s x)); simpl; by rewrite IH.
  - simpl. by destruct (bool_decide (result_is s x)), (bool_decide (result_is s y)).
  - by rewrite IH1.
Qed.

(** X3.  The counts do not depend on the order of the records: a
    reordered input gives the same counter and the same outcome
    section. *)
Theorem counts_order_independent
    (in_path now : string) (rows rows' : list row) :
  rows ≡ₚ rows' →
  counts rows = counts rows'
  ∧ section_of "## Outcome" (lines in_path now rows)
    = section_of "## Outcome" (lines in_path now rows').
Proof.
  intros Hp. split; [by apply counts_Permutation|].
  rewrite !section_outcome.
  by rewrite !(count_result_Permutation _ rows rows').
Qed.

Lemma counts_order_independent_witness :
  [blocked_first; late_failure] ≡ₚ [late_failure; blocked_first]
  ∧ counts [blocked_first; late_failure] = counts [late_failure; blocked_first]
  ∧ section_of "## Outcome" (lines "in.json" "T" [blocked_first; late_failure])
    = section_of "## Outcome" (lines "in.json" "T" [late_failure; blocked_first]).
Proof.
  split; [apply perm_swap|].
  apply (counts_order_independent "in.json" "T"). apply perm_swap.
Defined.

(** X4.  The three numbers of the outcome section add up to at most the
    number of records, and to exactly that number when, and only when,
    the result of every record is PASS, FAIL or BLOCKED. *)
Theorem outcome_counts_bound (rows : list row) :
  (count_get (counts rows) (VStr "PASS") + count_get (counts rows) (VStr "FAIL")
    + count_get (counts rows) (VStr "BLOCKED") ≤ length rows)%nat
  ∧ (count_get (counts rows) (VStr "PASS") + count_get (counts rows) (VStr "FAIL")
       + count_get (counts rows) (VStr "BLOCKED") = length rows
     ↔ Forall (λ r, result_is "PASS" r ∨ result_is "FAIL" r
                    ∨ result_is "BLOCKED" r) rows).
Proof.
  rewrite !count_get_counts by done. unfold count_result.
  induction rows as [|r rows [IHle IHeq]].
  - split; [done|]. split; [constructor | done].
  - simpl List.filter. rewrite Forall_cons.
    repeat case_bool_decide; simpl length; unfold result_is in *;
      first
        [ exfalso; congruence
        | split;
          [ lia
          | split;
            [ intros ?; first [lia | split; [tauto | apply IHeq; lia]]
            | intros [Hr Hall];
              first [apply IHeq in Hall; lia | tauto] ] ] ].
Qed.

(** ** The guard of the root-cause section *)

(** X5.  The test [if root_failure:] never drops a failure that [next]
    found: the record found is one of the input, its result is FAIL, so
    it is not the empty dict and its truth value is true; the lines of
    the root-cause section are missing only when no record was found. *)
Theorem root_cause_guard (rows : list row) :
  match root_failure rows with
  | Some r => r ∈ rows ∧ result_is "FAIL" r ∧ truthy r = true
  | None => has_result "FAIL" rows = false
  end
  ∧ (root_cause_lines (root_failure rows) (blocked rows) = []
     ↔ root_failure rows = None).
Proof.
  split.
  - destruct (root_failure rows) as [r|] eqn:E.
    + destruct (root_failure_split _ _ E) as (pre & post & -> & _ & Hr).
      split_and!; [| done | by apply (truthy_lookup _ _ _ Hr)].
      apply elem_of_app. right. apply elem_of_cons. by left.
    + destruct (has_result "FAIL" rows) eqn:Hf; [|done].
      apply root_failure_some in Hf as [r Hr]. congruence.
  - rewrite root_cause_lines_shape.
    destruct (root_failure rows) as [r|]; [|done].
    split; discriminate.
Qed.

(** ** The lines of the written text *)

Lemma has_lf_app a b : has_lf (a +:+ b) = has_lf a || has_lf b.
Proof.
  induction a as [|c a IH]; [done|].
  change (String c a +:+ b) with (String c (a +:+ b)).
  simpl. by rewrite IH, orb_assoc.
Qed.

Lemma has_lf_pretty_N_go x s :
  has_lf s = false → has_lf (pretty_N_go x s) = false.
Proof.
  revert s. induction (N.lt_wf_0 x) as [x _ IH]; intros s Hs.
  assert (x = 0 ∨ 0 < x)%N as [->|Hx] by lia.
  - by rewrite pretty_N_go_0.
  - rewrite pretty_N_go_step by done. apply IH; [by apply N.div_lt|].
    simpl. rewrite Hs, orb_false_r.
    unfold pretty_N_char. by repeat case_match.
Qed.

Lemma has_lf_pretty_nat (n : nat) : has_lf (pretty n) = false.
Proof.
  unfold pretty, pretty_nat, pretty, pretty_N.
  case_decide; [done|]. by apply has_lf_pretty_N_go.
Qed.

Lemma clean_row_fields r :
  clean_row r = true →
  clean_field r "test" = true ∧ clean_field r "result" = true
  ∧ clean_field r "code" = true ∧ clean_field r "detail" = true.
Proof. unfold clean_row. rewrite !andb_true_iff. tauto. Qed.

Lemma has_lf_shown r k d :
  clean_field r k = true → has_lf d = false → has_lf (shown r k d) = false.
Proof.
  unfold clean_field, shown. destruct (r !! k); [|done].
  by intros ?%negb_true_iff.
Qed.

Lemma has_lf_get r k : clean_field r k = true → has_lf (str (get r k)) = false.
Proof.
  unfold clean_field, get. destruct (r !! k); [|done].
  by intros ?%negb_true_iff.
Qed.

Lemma has_lf_bullet r : clean_row r = true → has_lf (bullet r) = false.
Proof.
  intros (Ht & Hr & Hc & Hd)%clean_row_fields. unfold bullet.
  rewrite !has_lf_app, !has_lf_shown by done. reflexivity.
Qed.

Lemma has_lf_cause r n :
  clean_row r = true → Forall (λ l, has_lf l = false) (cause_section r n).
Proof.
  intros (Ht & Hr & Hc & Hd)%clean_row_fields. unfold cause_section.
  repeat apply Forall_cons_2.
  - rewrite !has_lf_app, has_lf_get, has_lf_shown by done. reflexivity.
  - rewrite !has_lf_app, has_lf_shown by done. reflexivity.
  - case_bool_decide; [constructor|].
    apply Forall_singleton. unfold downstream_line.
    rewrite !has_lf_app, has_lf_pretty_nat. reflexivity.
Qed.

Lemma has_lf_lines in_path t rows :
  has_lf in_path = false → has_lf t = false →
  forallb clean_row rows = true →
  Forall (λ l, has_lf l = false) (lines in_path t rows).
Proof.
  intros Hin Ht Hrows. rewrite lines_shape. unfold preamble.
  apply Is_true_true_2, forallb_True in Hrows.
  apply Forall_app_2; [|apply Forall_app_2].
  - repeat apply Forall_cons_2; try apply Forall_nil_2; try reflexivity;
      rewrite !has_lf_app, ?has_lf_pretty_nat, ?Hin, ?Ht; reflexivity.
  - destruct (root_failure rows) as [r|] eqn:E; [|constructor].
    destruct (root_failure_split _ _ E) as (pre & post & -> & _ & _).
    apply Forall_app in Hrows as [_ [Hr _]%Forall_cons].
    apply Forall_cons_2; [reflexivity|].
    apply Forall_app_2; [|by apply Forall_singleton].
    apply has_lf_cause. by apply Is_true_true_1.
  - apply Forall_cons_2; [reflexivity|].
    apply Forall_fmap. eapply Forall_impl; [exact Hrows|].
    intros r Hr. apply has_lf_bullet. by apply Is_true_true_1.
Qed.

(** X6.  When the input path, the clock reading and the four fields of
    every record hold no line feed, splitting the written text at its
    line feeds gives back the lines of the report, one by one, followed by
    the empty string that the final line feed leaves: the text has one
    line per entry and ends with exactly one line feed. *)
Theorem report_text_lines (in_path t : string) (rows : list row) :
  has_lf in_path = false →
  has_lf t = false →
  forallb clean_row rows = true →
  split_lf (rendered in_path t rows) = lines in_path t rows ++ [""].
Proof.
  intros Hin Ht Hrows. apply split_lf_join.
  - by apply has_lf_lines.
  - by rewrite lines_head.
Qed.

Lemma report_text_lines_witness :
  has_lf "in.json" = false
  ∧ has_lf "2026-01-01T00:00:00+00:00" = false
  ∧ forallb clean_row clean_rows = true
  ∧ split_lf (rendered "in.json" "2026-01-01T00:00:00+00:00" clean_rows)
    = lines "in.json" "2026-01-01T00:00:00+00:00" clean_rows ++ [""].
Proof.
  split_and!; [reflexivity..|].
  apply (report_text_lines "in.json" "2026-01-01T00:00:00+00:00" clean_rows);
    reflexivity.
Defined.

(** ** How runs end *)

Section Runs.

Variable Path : string → string.
Variable json_loads : string → option (list row).



(** X9.  The existence test lets a directory through: when the input
    path names a directory the run does not end with the message
    [Input not found] but with the exception of [read_text], status 1,
    and nothing is written or printed. *)
Theorem directory_input_raises (w : world) :
  fs w !! locate w (in_path_of Path w) = Some Dir →
  run Path json_loads w = failure w (Traceback IsADirectoryError).
Proof.
  intros Hin. rewrite run_course. unfold course_of. by rewrite Hin.
Qed.

(** X10.  When the text of the input file does not parse to records the
    run ends before the report is built: status 1, the exception on the
    standard error stream, no file written and nothing printed. *)
Theorem unparsed_input_raises (w : world) (text : string) :
  fs w !! locate w (in_path_of Path w) = Some (File text) →
  json_loads text = None →
  run Path json_loads w = failure w (Traceback ValueError).
Proof.
  intros Hin Hl. rewrite run_course. unfold course_of. by rewrite Hin, Hl.
Qed.

(** X11.  The run reads the command line through its second and third
    entries only, an absent entry standing for its default path: the
    program name and the entries after the third do not matter. *)
Theorem run_reads_two_arguments
    (a a' : list string) (f : gmap string node) (l : string → string)
    (c : string → bool) (x : string → option nat) (t : string) :
  default "tmp/ladder-results.json" (a !! 1)
    = default "tmp/ladder-results.json" (a' !! 1) →
  default "tmp/ladder-summary.md" (a !! 2)
    = default "tmp/ladder-summary.md" (a' !! 2) →
  run Path json_loads (World a f l c x t)
  = run Path json_loads (World a' f l c x t).
Proof.
  intros H1 H2.
  unfold run, main, exists_, in_path_of, out_path_of, read_text, write_text.
  cbn [argv fs locate can_write write_fault now].
  by rewrite H1, H2.
Qed.


(** When the input and the output path name one file, the run that ends
    with the status 0 has replaced the input by the report. *)
Lemma same_file_is_overwritten (w : world) :
  status (run Path json_loads w) = 0%Z →
  locate w (in_path_of Path w) = locate w (out_path_of Path w) →
  ∃ rows,
    fs_after (final (run Path json_loads w)) !! locate w (in_path_of Path w)
    = Some (File (rendered (in_path_of Path w) (now w) rows)).
Proof.
  intros Hs Heq.
  apply run_status_0 in Hs
    as (text & rows & Hin & Hl & Hout & Hw & Hf & Hrun).
  exists rows. rewrite Hrun. unfold success. cbn [final fs_after].
  by rewrite Heq, lookup_insert_eq.
Qed.

End Runs.


Lemma directory_input_raises_witness :
  fs dir_world !! locate dir_world (in_path_of id dir_world) = Some Dir
  ∧ run id loads_empty dir_world
    = failure dir_world (Traceback IsADirectoryError).
Proof.
  split; [reflexivity|].
  apply (directory_input_raises id loads_empty dir_world). reflexivity.
Defined.

Lemma unparsed_input_raises_witness :
  fs garbage_world !! locate garbage_world (in_path_of id garbage_world)
  = Some (File "not json")
  ∧ loads_empty "not json" = None
  ∧ run id loads_empty garbage_world
    = failure garbage_world (Traceback ValueError).
Proof.
  split_and!; [reflexivity..|].
  apply (unparsed_input_raises id loads_empty garbage_world "not json");
    reflexivity.
Defined.

Lemma run_reads_two_arguments_witness :
  run id loads_empty
    (World ["ladder-summarize.py"] (fs ready_world) id (λ _, true) (λ _, None) "T")
  = run id loads_empty
      (World ["summarize"; "tmp/ladder-results.json"; "tmp/ladder-summary.md"; "more"]
             (fs ready_world) id (λ _, true) (λ _, None) "T").
Proof.
  apply (run_reads_two_arguments id loads_empty); reflexivity.
Defined.


(** ** Selection of the records *)

Lemma count_result_le s rows : (count_result s rows ≤ length rows)%nat.
Proof. unfold count_result. apply List.filter_length_le. Qed.

(** X13.  The failure and the blocked records are selected by the exact
    string: a result that is another string, a number, a boolean or
    [null] is neither.  No record is both, so when a failure is found the
    number of blocked records that the report shows is smaller than the
    number of records. *)
Theorem selection_by_exact_string (rows : list row) :
  root_failure rows = List.find (λ r, bool_decide (result_is "FAIL" r)) rows
  ∧ blocked rows = List.filter (λ r, bool_decide (result_is "BLOCKED" r)) rows
  ∧ (∀ r, is_fail r && is_blocked r = false)
  ∧ (is_Some (root_failure rows) → (length (blocked rows) < length rows)%nat).
Proof.
  split_and!.
  - unfold root_failure. induction rows as [|r rows IH]; [done|].
    simpl. by rewrite is_fail_result, IH.
  - unfold blocked. apply List.filter_ext, is_blocked_result.
  - intros r. rewrite is_fail_result, is_blocked_result.
    unfold result_is. repeat case_bool_decide; try done. congruence.
  - intros [r Hr]. rewrite blocked_length.
    destruct (root_failure_split _ _ Hr) as (pre & post & -> & _ & Hfail).
    rewrite count_result_app, length_app. simpl length.
    pose proof (count_result_le "BLOCKED" pre).
    pose proof (count_result_le "BLOCKED" post).
    unfold count_result in *. simpl List.filter.
    rewrite bool_decide_eq_false_2; [lia|].
    unfold result_is in *. congruence.
Qed.

(** * The written document *)

(** ** From the entries to the lines of the text *)

Lemma clean_input_lines in_path t rows :
  clean_input in_path t rows = true →
  split_lf (rendered in_path t rows) = lines in_path t rows ++ [""].
Proof.
  unfold clean_input. rewrite !andb_true_iff, !negb_true_iff.
  intros [[Hin Ht] Hrows]. apply rendered_lines. by apply has_lf_lines.
Qed.

Lemma after_app_blank t ls :
  after (String "#"%char t) (ls ++ [""])
  = (λ rest, rest ++ [""]) <$> after (String "#"%char t) ls.
Proof.
  induction ls as [|l ls IH]; [done|].
  simpl. destruct (String.eqb l _); [done | apply IH].
Qed.

Lemma until_blank_app_blank ls : until_blank (ls ++ [""]) = until_blank ls.
Proof.
  induction ls as [|l ls IH]; [done|].
  simpl. destruct (String.eqb l ""); [done | by rewrite IH].
Qed.

Lemma section_of_app_blank t ls :
  section_of (String "#"%char t) (ls ++ [""]) = section_of (String "#"%char t) ls.
Proof.
  unfold section_of. rewrite after_app_blank.
  destruct (after _ ls) as [rest|]; [|done].
  simpl. by rewrite until_blank_app_blank.
Qed.

Lemma with_prefix_app_blank c p ls :
  lines_with_prefix (String c p) (ls ++ [""]) = lines_with_prefix (String c p) ls.
Proof. rewrite with_prefix_app. simpl. apply app_nil_r. Qed.

Lemma not_elem_of_app_blank t (ls : list string) :
  String "#"%char t ∉ ls → String "#"%char t ∉ ls ++ [""].
Proof.
  intros Hls [H|H]%elem_of_app; [done|].
  by apply list_elem_of_singleton in H.
Qed.

(** ** The root-cause section of the document *)

(** C3, as the code has it.  When no record has the result [FAIL], the
    script appends no entry [## Root cause] and no entry that reports
    blocked tests, whatever the number of blocked records.  When moreover
    the input path, the clock reading and the printed fields of the
    records hold no line feed, the written document has no line
    [## Root cause], hence no root-cause section, and no line that
    reports blocked tests. *)
Theorem no_fail_no_root_cause (in_path t : string) (rows : list row) :
  has_result "FAIL" rows = false →
  root_failure rows = None
  ∧ ("## Root cause" ∉ lines in_path t rows)
  ∧ section_of "## Root cause" (lines in_path t rows) = None
  ∧ lines_with_prefix "- Downstream blocked" (lines in_path t rows) = []
  ∧ (clean_input in_path t rows = true →
       ("## Root cause" ∉ split_lf (rendered in_path t rows))
       ∧ section_of "## Root cause" (split_lf (rendered in_path t rows)) = None
       ∧ lines_with_prefix "- Downstream blocked"
           (split_lf (rendered in_path t rows)) = []).
Proof.
  intros Hfail.
  destruct (no_fail_entries in_path t rows Hfail) as (Hroot & Hnot & Hsec & Hdown).
  split_and!; try done.
  intros Hclean. rewrite (clean_input_lines _ _ _ Hclean).
  split_and!.
  - by apply not_elem_of_app_blank.
  - by rewrite section_of_app_blank.
  - by rewrite with_prefix_app_blank.
Qed.

Lemma no_fail_no_root_cause_witness :
  has_result "FAIL" blocked_only = false
  ∧ root_failure blocked_only = None
  ∧ ("## Root cause" ∉ lines "in.json" "T" blocked_only)
  ∧ section_of "## Root cause" (lines "in.json" "T" blocked_only) = None
  ∧ lines_with_prefix "- Downstream blocked" (lines "in.json" "T" blocked_only) = []
  ∧ (clean_input "in.json" "T" blocked_only = true →
       ("## Root cause" ∉ split_lf (rendered "in.json" "T" blocked_only))
       ∧ section_of "## Root cause"
           (split_lf (rendered "in.json" "T" blocked_only)) = None
       ∧ lines_with_prefix "- Downstream blocked"
           (split_lf (rendered "in.json" "T" blocked_only)) = []).
Proof.
  split; [reflexivity|].
  apply (no_fail_no_root_cause "in.json" "T" blocked_only). reflexivity.
Defined.

(** C3, as the claim states it, fails on the written document: no record
    has the result [FAIL], and the text has a section [## Root cause]
    with a line that reports blocked tests, both from the detail of a
    passing test. *)
Lemma forged_root_cause_section :
  has_result "FAIL" forged_rows = false
  ∧ section_of "## Root cause" (split_lf (rendered "in.json" "T" forged_rows))
    = Some [ "- Downstream blocked: 9 test(s)" ].
Proof. split; reflexivity. Qed.

(** ** The test matrix of the document *)

(** C4, as the code has it.  After the only entry [## Test matrix] the
    script appends one bullet per record, in the order of the input, each
    of the form [- Test {test}: {result} | {code} | {detail}] with the
    defaults [?], [UNKNOWN], [UNKNOWN] and the empty string for absent
    fields, and nothing else; for the empty input the header is there and
    no bullet follows.  When the input path, the clock reading and the
    printed fields of the records hold no line feed, these bullets are the
    lines of the section [## Test matrix] of the written document, the
    last of the text: exactly one line per record. *)
Theorem matrix_section (in_path t : string) (rows : list row) :
  section_of "## Test matrix" (lines in_path t rows) = Some (bullet <$> rows)
  ∧ (∃ before, ("## Test matrix" ∉ before)
       ∧ lines in_path t rows = before ++ "## Test matrix" :: (bullet <$> rows))
  ∧ section_of "## Test matrix" (lines in_path t []) = Some []
  ∧ (clean_input in_path t rows = true →
       section_of "## Test matrix" (split_lf (rendered in_path t rows))
       = Some (bullet <$> rows)
       ∧ (∃ before, ("## Test matrix" ∉ before)
            ∧ split_lf (rendered in_path t rows)
              = before ++ "## Test matrix" :: (bullet <$> rows) ++ [""])
       ∧ length (bullet <$> rows) = length rows)
  ∧ (clean_input in_path t [] = true →
       section_of "## Test matrix" (split_lf (rendered in_path t [])) = Some []).
Proof.
  destruct (matrix_entries in_path t rows) as (Hsec & (before & Hb & Hl) & Hnil).
  split_and!; try done.
  - by exists before.
  - intros Hclean. rewrite (clean_input_lines _ _ _ Hclean).
    split_and!.
    + by rewrite section_of_app_blank.
    + exists before. split; [done|]. rewrite Hl. by rewrite <- app_assoc.
    + by rewrite length_fmap.
  - intros Hclean. rewrite (clean_input_lines _ _ _ Hclean).
    by rewrite section_of_app_blank.
Qed.

(** C4, as the claim states it, fails on the written document: for one
    record, whose detail holds a line feed, the section [## Test matrix]
    of the text has two bullet lines. *)
Lemma two_bullet_lines_for_one_record :
  length two_line_rows = 1
  ∧ section_of "## Test matrix" (split_lf (rendered "in.json" "T" two_line_rows))
    = Some [ "- Test t1: PASS | UNKNOWN | first";
             "- Test t9: PASS | UNKNOWN | " ].
Proof. split; reflexivity. Qed.

(** ** The downstream line of the document *)

(** C7, as the code has it.  The script appends an entry
    [- Downstream blocked: ...] exactly when some record has the result
    [FAIL], which is when a root failure exists, and some record has the
    result [BLOCKED]; there is then one such entry, and it reports the
    number of records of the input that have the result [BLOCKED].  When
    the input path, the clock reading and the printed fields of the
    records hold no line feed, the same holds of the lines of the written
    document. *)
Theorem downstream_line_iff (in_path t : string) (rows : list row) :
  lines_with_prefix "- Downstream blocked" (lines in_path t rows)
  = (if has_result "FAIL" rows && has_result "BLOCKED" rows
     then [ "- Downstream blocked: " +:+ pretty (count_result "BLOCKED" rows)
              +:+ " test(s)" ]
     else [])
  ∧ (is_Some (root_failure rows) ↔ has_result "FAIL" rows = true)
  ∧ (clean_input in_path t rows = true →
       lines_with_prefix "- Downstream blocked"
         (split_lf (rendered in_path t rows))
       = if has_result "FAIL" rows && has_result "BLOCKED" rows
         then [ "- Downstream blocked: " +:+ pretty (count_result "BLOCKED" rows)
                  +:+ " test(s)" ]
         else []).
Proof.
  assert (lines_with_prefix "- Downstream blocked" (lines in_path t rows)
          = if has_result "FAIL" rows && has_result "BLOCKED" rows
            then [ "- Downstream blocked: "
                     +:+ pretty (count_result "BLOCKED" rows) +:+ " test(s)" ]
            else []) as Hentries.
  { rewrite downstream_entries.
    destruct (has_result "FAIL" rows) eqn:Hf.
    - by rewrite bool_decide_eq_true_2 by (by apply root_failure_exists).
    - rewrite bool_decide_eq_false_2; [done|].
      rewrite root_failure_exists. congruence. }
  split_and!; [done | apply root_failure_exists |].
  intros Hclean. rewrite (clean_input_lines _ _ _ Hclean).
  by rewrite with_prefix_app_blank.
Qed.

(** C7, as the claim states it, fails on the written document: no record
    has the result [FAIL] nor [BLOCKED], and the text has a line that
    reports blocked tests, from the detail of a passing test. *)
Lemma forged_downstream_line :
  has_result "FAIL" forged_rows = false
  ∧ has_result "BLOCKED" forged_rows = false
  ∧ lines_with_prefix "- Downstream blocked"
      (split_lf (rendered "in.json" "T" forged_rows))
    = [ "- Downstream blocked: 9 test(s)" ].
Proof. split_and!; reflexivity. Qed.

(** ** The end of the document *)

Lemma length_append (a b : string) :
  String.length (a +:+ b) = String.length a + String.length b.
Proof.
  induction a as [|c a IH]; [done|].
  change (String c a +:+ b) with (String c (a +:+ b)). simpl. by rewrite IH.
Qed.

Lemma trailing_lfs_le s : (trailing_lfs s ≤ String.length s)%nat.
Proof.
  induction s as [|c s IH]; [done|].
  simpl. destruct (Ascii.eqb c lf && _) eqn:E; [|lia].
  apply andb_true_iff in E as [_ E%Nat.eqb_eq]. lia.
Qed.

(** A text that does not end a text made of line feeds only keeps its
    trailing line feeds when a text is put before it. *)
Lemma trailing_lfs_app_r a b :
  (trailing_lfs b < String.length b)%nat →
  trailing_lfs (a +:+ b) = trailing_lfs b
  ∧ (trailing_lfs (a +:+ b) < String.length (a +:+ b))%nat.
Proof.
  intros Hb. induction a as [|c a [IH1 IH2]]; [done|].
  change (String c a +:+ b) with (String c (a +:+ b)). simpl.
  assert (Nat.eqb (trailing_lfs (a +:+ b)) (String.length (a +:+ b)) = false)
    as -> by (apply Nat.eqb_neq; lia).
  rewrite andb_false_r. split; [done | lia].
Qed.

(** Line feeds after a text add to those that end it. *)
Lemma trailing_lfs_LF s : trailing_lfs (s +:+ LF) = S (trailing_lfs s).
Proof.
  induction s as [|c s IH]; [done|].
  change (String c s +:+ LF) with (String c (s +:+ LF)). simpl.
  rewrite IH, length_append. simpl.
  replace (String.length s + 1) with (S (String.length s)) by lia.
  simpl. by destruct (Ascii.eqb c lf && _).
Qed.

Lemma join_last sep ls l :
  last ls = Some l → ∃ before, join sep ls = before +:+ l.
Proof.
  induction ls as [|x ls IH]; [done|].
  destruct ls as [|y ls].
  - intros [= ->]. by exists "".
  - rewrite last_cons_cons. intros (before & Hb)%IH.
    exists (x +:+ sep +:+ before).
    by rewrite join_cons_cons, Hb, !append_assoc.
Qed.

(** A line that starts with a dash or a hash does not consist of line
    feeds. *)
Lemma trailing_lfs_head c s :
  Ascii.eqb c lf = false →
  (trailing_lfs (String c s) < String.length (String c s))%nat.
Proof.
  intros Hc. simpl. rewrite Hc. simpl.
  pose proof (trailing_lfs_le s). lia.
Qed.

(** The line feeds that end a bullet are those that end its detail. *)
Lemma trailing_lfs_bullet r :
  trailing_lfs (bullet r) = trailing_lfs (shown r "detail" "")
  ∧ (trailing_lfs (bullet r) < String.length (bullet r))%nat.
Proof.
  unfold bullet.
  assert (trailing_lfs (" | " +:+ shown r "detail" "")
            = trailing_lfs (shown r "detail" "")
          ∧ (trailing_lfs (" | " +:+ shown r "detail" "")
             < String.length (" | " +:+ shown r "detail" ""))%nat) as [H0 H1].
  { split; [reflexivity|].
    pose proof (trailing_lfs_le (shown r "detail" "")).
    change (trailing_lfs (" | " +:+ shown r "detail" ""))
      with (trailing_lfs (shown r "detail" "")).
    change (String.length (" | " +:+ shown r "detail" ""))
      with (S (S (S (String.length (shown r "detail" ""))))). lia. }
  repeat match goal with
  | |- trailing_lfs (?a +:+ ?b) = _ ∧ _ =>
      let H := fresh in
      assert (trailing_lfs b = trailing_lfs (shown r "detail" "")
              ∧ (trailing_lfs b < String.length b)%nat) as [H ?];
      [ | destruct (trailing_lfs_app_r a b) as [-> ?]; [done|];
          split; [exact H | by rewrite <- H in *] ]
  end.
  done.
Qed.

Lemma trailing_lfs_last_line in_path t rows l :
  last (lines in_path t rows) = Some l →
  trailing_lfs l = trailing_lfs (last_detail rows)
  ∧ (trailing_lfs l < String.length l)%nat.
Proof.
  rewrite lines_shape, app_assoc, last_app_cons. unfold last_detail.
  destruct (last rows) as [r|] eqn:Hr.
  - assert (last ("## Test matrix" :: (bullet <$> rows)) = Some (bullet r)) as ->.
    { apply last_Some in Hr as [rows' ->].
      rewrite fmap_app, app_comm_cons. apply last_snoc. }
    intros [= <-]. apply trailing_lfs_bullet.
  - apply last_None in Hr as ->. intros [= <-]. split; [reflexivity|].
    simpl. lia.
Qed.

(** The report ends with one line feed more than the detail of its last
    record. *)
Lemma trailing_lfs_rendered in_path t rows :
  trailing_lfs (rendered in_path t rows) = S (trailing_lfs (last_detail rows)).
Proof.
  unfold rendered. rewrite trailing_lfs_LF. f_equal.
  destruct (lines_last in_path t rows) as (l & Hl & _).
  destruct (join_last LF _ _ Hl) as (before & ->).
  destruct (trailing_lfs_last_line _ _ _ _ Hl) as [<- Hlt].
  by apply trailing_lfs_app_r.
Qed.

Section Written.

Variable Path : string → string.
Variable json_loads : string → option (list row).

(** C8, as the code has it.  A run that ends with the status 0 has read
    the records of the input file and has written to the output file the
    lines of the report joined by line feeds and followed by one line
    feed.  The last of these lines is not blank, and the text ends with
    one line feed more than the detail of the last record does: with
    exactly one when that detail does not end with a line feed, or when
    there is no record.  The run has changed no other file, has printed
    the output path and a line feed to the standard output, and nothing
    to the standard error stream. *)
Theorem success_effects (w : world) :
  status (run Path json_loads w) = 0%Z →
  ∃ text rows last_line,
    fs w !! locate w (in_path_of Path w) = Some (File text)
    ∧ json_loads text = Some rows
    ∧ fs_after (final (run Path json_loads w)) !! locate w (out_path_of Path w)
      = Some (File (join LF (lines (in_path_of Path w) (now w) rows) +:+ LF))
    ∧ last (lines (in_path_of Path w) (now w) rows) = Some last_line
    ∧ last_line ≠ ""
    ∧ trailing_lfs (join LF (lines (in_path_of Path w) (now w) rows) +:+ LF)
      = S (trailing_lfs (last_detail rows))
    ∧ (trailing_lfs (last_detail rows) = 0 →
         trailing_lfs (join LF (lines (in_path_of Path w) (now w) rows) +:+ LF)
         = 1)
    ∧ (∀ p, p ≠ locate w (out_path_of Path w) →
         fs_after (final (run Path json_loads w)) !! p = fs w !! p)
    ∧ stdout (final (run Path json_loads w)) = out_path_of Path w +:+ LF
    ∧ err (run Path json_loads w) = Silent.
Proof.
  intros (text & rows & Hin & Hrows & _ & _ & _ & ->)%run_status_0.
  destruct (lines_last (in_path_of Path w) (now w) rows) as (l & Hl & Hnb).
  pose proof (trailing_lfs_rendered (in_path_of Path w) (now w) rows) as Ht.
  unfold rendered in Ht.
  exists text, rows, l. unfold success. cbn [final fs_after stdout err].
  split_and!; try done.
  - by rewrite lookup_insert_eq.
  - intros H0. by rewrite Ht, H0.
  - intros p Hp. by rewrite lookup_insert_ne.
Qed.

End Written.

Lemma success_effects_witness :
  status (run id loads_sample trailing_world) = 0%Z
  ∧ ∃ text rows last_line,
      fs trailing_world !! locate trailing_world (in_path_of id trailing_world)
      = Some (File text)
      ∧ loads_sample text = Some rows
      ∧ fs_after (final (run id loads_sample trailing_world))
          !! locate trailing_world (out_path_of id trailing_world)
        = Some (File (join LF (lines (in_path_of id trailing_world)
                                 (now trailing_world) rows) +:+ LF))
      ∧ last (lines (in_path_of id trailing_world) (now trailing_world) rows)
        = Some last_line
      ∧ last_line ≠ ""
      ∧ trailing_lfs (join LF (lines (in_path_of id trailing_world)
                                 (now trailing_world) rows) +:+ LF)
        = S (trailing_lfs (last_detail rows))
      ∧ (trailing_lfs (last_detail rows) = 0 →
           trailing_lfs (join LF (lines (in_path_of id trailing_world)
                                    (now trailing_world) rows) +:+ LF)
           = 1)
      ∧ (∀ p, p ≠ locate trailing_world (out_path_of id trailing_world) →
           fs_after (final (run id loads_sample trailing_world)) !! p
           = fs trailing_world !! p)
      ∧ stdout (final (run id loads_sample trailing_world))
        = out_path_of id trailing_world +:+ LF
      ∧ err (run id loads_sample trailing_world) = Silent.
Proof.
  split; [reflexivity|].
  apply (success_effects id loads_sample trailing_world). reflexivity.
Defined.

(** C8, as the claim states it, fails: the run ends with the status 0 and
    the written text ends with two line feeds, the first from the detail
    of the last record. *)
Lemma two_trailing_line_feeds :
  status (run id loads_sample trailing_world) = 0%Z
  ∧ (∃ body,
       fs_after (final (run id loads_sample trailing_world)) !! "out.md"
       = Some (File (body +:+ LF +:+ LF)))
  ∧ trailing_lfs (rendered "in.json" (now trailing_world) trailing_rows) = 2.
Proof.
  split_and!; [reflexivity | | reflexivity].
  exists (String.substring 0
            (String.length (rendered "in.json" (now trailing_world) trailing_rows) - 2)
            (rendered "in.json" (now trailing_world) trailing_rows)).
  vm_compute. reflexivity.
Qed.
